(** * Lorenz integrator and damped-pendulum kinematics of the manim scenes

    Shallow embedding of [get_lorenz_points] (scene4.py, scene5.py,
    scene6.py) and of the per-frame [update_pendulum] closure (scene7.py). *)

From Stdlib Require Import ZArith QArith Qabs Lia List Reals Lra.
From Stdlib Require Import Floats.SpecFloat.
From stdpp Require Import base gmap list.
Import ListNotations.

(** ** Numbers

    The integrator is written with Python's [+], [-] and [*] only; it is
    modelled over any carrier with these three operations.  Python's small
    integer literals ([10], [28], the coordinates [10, 10, 10]) are exact
    in binary64 and every integer intermediate the scenes compute is exact
    too, so the mixed int/float arithmetic of the source coincides with
    binary64 arithmetic on the converted values. *)

Class PyNum (A : Type) := {
  py_add : A -> A -> A;
  py_sub : A -> A -> A;
  py_mul : A -> A -> A
}.

Declare Scope py_scope.
Delimit Scope py_scope with py.
Infix "+" := py_add : py_scope.
Infix "-" := py_sub : py_scope.
Infix "*" := py_mul : py_scope.

(** A point [[x, y, z]] of the output list. *)
Definition point (A : Type) : Type := (A * A * A)%type.

Module Lorenz.
Section Integrator.
Context {A : Type} `{PyNum A}.
Local Open Scope py_scope.

(** Keyword arguments [sigma], [rho], [beta], [dt]. *)
Variables sigma rho beta dt : A.

(** The three derivative lines of the loop body. *)
Definition deriv (x y z : A) : point A :=
    (sigma * (y - x), x * (rho - z) - y, x * y - beta * z).

(** [for _ in range(num_points): ...; points.append([x, y, z])] with the
      locals [x], [y], [z] threaded through and [points] as accumulator. *)
Fixpoint loop (n : nat) (x y z : A) (points : list (point A)) : list (point A) :=
    match n with
    | O => points
    | S n' =>
        let '(dx, dy, dz) := deriv x y z in
        let x' := x + dx * dt in
        let y' := y + dy * dt in
        let z' := z + dz * dt in
        loop n' x' y' z' (points ++ [(x', y', z')])
    end.

(** scene4.py [LorenzSystem.get_lorenz_points]: [x, y, z = xyz]. *)
Definition get_lorenz_points (num_points : nat) (xyz : point A) : list (point A) :=
    let '(x, y, z) := xyz in loop num_points x y z [].

(** The explicit-Euler step as the claims state it. *)
Definition euler_step (p : point A) : point A :=
    let '(x, y, z) := p in
    (x + sigma * (y - x) * dt,
     y + (x * (rho - z) - y) * dt,
     z + (x * y - beta * z) * dt).

(** scene5.py [ComprehensiveChaosSystem.get_lorenz_points]: the same loop,
      also returning [[dx, dy, dz]] of the last iteration.  With
      [num_points = 0] the loop body never runs, [dx] is unbound and Python
      raises [UnboundLocalError]: modelled as [None]. *)
Fixpoint loop5 (n : nat) (x y z : A) (points : list (point A))
      (last : option (point A)) : list (point A) * option (point A) :=
    match n with
    | O => (points, last)
    | S n' =>
        let '(dx, dy, dz) := deriv x y z in
        let x' := x + dx * dt in
        let y' := y + dy * dt in
        let z' := z + dz * dt in
        loop5 n' x' y' z' (points ++ [(x', y', z')]) (Some (dx, dy, dz))
    end.

Definition get_lorenz_points5 (num_points : nat) (xyz : point A)
      : option (list (point A) * point A) :=
    let '(x, y, z) := xyz in
    match loop5 num_points x y z [] None with
    | (points, Some d) => Some (points, d)
    | (_, None) => None
    end.

(** scene6.py [AdvancedChaosSystem.get_lorenz_points]: every derivative
      triple is appended to [derivatives] before the state update. *)
Fixpoint loop6 (n : nat) (x y z : A) (points derivatives : list (point A))
      : list (point A) * list (point A) :=
    match n with
    | O => (points, derivatives)
    | S n' =>
        let '(dx, dy, dz) := deriv x y z in
        let derivatives' := derivatives ++ [(dx, dy, dz)] in
        let x' := x + dx * dt in
        let y' := y + dy * dt in
        let z' := z + dz * dt in
        loop6 n' x' y' z' (points ++ [(x', y', z')]) derivatives'
    end.

Definition get_lorenz_points6 (num_points : nat) (xyz : point A)
      : list (point A) * list (point A) :=
    let '(x, y, z) := xyz in loop6 num_points x y z [] [].

(** The states the loop starts each iteration from. *)
Fixpoint pre_states (n : nat) (p : point A) : list (point A) :=
    match n with
    | O => []
    | S n' => p :: pre_states n' (euler_step p)
    end.

Definition deriv3 (p : point A) : point A :=
    let '(x, y, z) := p in deriv x y z.

End Integrator.
End Lorenz.

(** ** Carriers *)

#[export] Instance PyNum_Q : PyNum Q := {
  py_add := Qplus; py_sub := Qminus; py_mul := Qmult
}.

(** IEEE 754 binary64 with round-to-nearest-even: Python's [float]. *)
Definition prec64 : Z := 53.
Definition emax64 : Z := 1024.
Definition f64 : Type := spec_float.

#[export] Instance PyNum_f64 : PyNum f64 := {
  py_add := SFadd prec64 emax64;
  py_sub := SFsub prec64 emax64;
  py_mul := SFmul prec64 emax64
}.

Definition f64_div : f64 -> f64 -> f64 := SFdiv prec64 emax64.

(** Exact integer literal (the integers used here are far below 2^53). *)
Definition f64_of_Z (n : Z) : f64 := binary_normalize prec64 emax64 n 0 false.

(** A decimal literal [m / 10^k], parsed with correct rounding: the
    nearest double to [m / 10^k] is the correctly rounded quotient. *)
Definition f64_lit (m : Z) (k : nat) : f64 :=
  f64_div (f64_of_Z m) (f64_of_Z (10 ^ Z.of_nat k)).

(** The exact rational value of a finite double. *)
Definition Q_of_f64 (f : f64) : option Q :=
  match f with
  | S754_zero _ => Some 0%Q
  | S754_finite s m e =>
      let zm := if s then Z.neg m else Z.pos m in
      match e with
      | Z0 => Some (inject_Z zm)
      | Zpos p => Some (inject_Z (zm * 2 ^ Z.pos p))
      | Zneg p => Some (Qred (zm # (2 ^ p)))
      end
  | _ => None
  end.

Definition sigma_default : f64 := f64_of_Z 10.
Definition rho_default : f64 := f64_of_Z 28.
Definition beta_default : f64 := f64_div (f64_of_Z 8) (f64_of_Z 3).
Definition dt_default : f64 := f64_lit 1 2.

(** Inputs of the concrete runs. *)
Definition lorenz64 (num_points : nat) (xyz : point f64) : list (point f64) :=
  Lorenz.get_lorenz_points sigma_default rho_default beta_default dt_default
    num_points xyz.

(** Squared Euclidean distance of two finite points, computed exactly. *)
Definition dist2 (p q : point f64) : option Q :=
  let '(x1, y1, z1) := p in
  let '(x2, y2, z2) := q in
  match Q_of_f64 x1, Q_of_f64 y1, Q_of_f64 z1,
        Q_of_f64 x2, Q_of_f64 y2, Q_of_f64 z2 with
  | Some a1, Some b1, Some c1, Some a2, Some b2, Some c2 =>
      Some ((a1 - a2) * (a1 - a2) + (b1 - b2) * (b1 - b2) + (c1 - c2) * (c1 - c2))%Q
  | _, _, _, _, _, _ => None
  end.

Definition start_a : point f64 := (f64_of_Z 10, f64_of_Z 10, f64_of_Z 10).
Definition start_b : point f64 := (f64_lit 1001 2, f64_of_Z 10, f64_of_Z 10).

(** The point the spec writes down for the single step from [(1, 1, 1)]:
    [(1 + 0*0.01, 1 + 26*0.01, 1 + (1*1 - 8/3*1)*0.01)], in Python floats. *)
Definition c3_expected : point f64 :=
  let one := f64_of_Z 1 in
  ((one + f64_of_Z 0 * dt_default)%py,
   (one + f64_of_Z 26 * dt_default)%py,
   (one + (one * one - beta_default * one) * dt_default)%py).

Definition c3_start : point f64 := (f64_of_Z 1, f64_of_Z 1, f64_of_Z 1).

(** Does a finite double lie within [eps] of [q]? *)
Definition f64_near (f : f64) (q eps : Q) : Prop :=
  match Q_of_f64 f with
  | Some v => (Qabs (v - q) < eps)%Q
  | None => False
  end.

(** ** The Python heap

    [get_lorenz_points] receives [xyz] by reference and allocates the
    lists it returns.  Objects live in a store indexed by locations;
    [next_loc] is the allocator's next fresh location. *)

Definition loc : Type := nat.

Inductive obj (A : Type) : Type :=
  | ONums (ns : list A)      (** a list (or array) of numbers *)
  | ORefs (ls : list loc).   (** a list of references to objects *)
Arguments ONums {A} ns.
Arguments ORefs {A} ls.

Record store (A : Type) : Type := mk_store {
  heap : gmap loc (obj A);
  next_loc : loc
}.
Arguments mk_store {A} heap next_loc.
Arguments heap {A} s.
Arguments next_loc {A} s.

(** No live object sits at or beyond the allocator's next location. *)
Definition store_wf {A : Type} (st : store A) : Prop :=
  map_Forall (fun l _ => l < next_loc st) (heap st).

Module Heap.
Section HeapIntegrator.
Context {A : Type} `{PyNum A}.
Local Open Scope py_scope.
Variables sigma rho beta dt : A.

(** A list display [[...]]: a fresh object. *)
Definition alloc (o : obj A) (st : store A) : loc * store A :=
    (next_loc st,
     mk_store (<[next_loc st := o]> (heap st)) (S (next_loc st))).

(** [lst.append(v)] for a list [lst] of references. *)
Definition list_append (lst v : loc) (st : store A) : store A :=
    match heap st !! lst with
    | Some (ORefs ls) => mk_store (<[lst := ORefs (ls ++ [v])]> (heap st)) (next_loc st)
    | _ => st
    end.

(** [x, y, z = xyz] for an argument holding three numbers, the initial
    states the scenes pass.  [None] is Python's unpacking error for a
    sequence of another length; a three-element sequence of non-numbers
    (lists, arrays) lies outside this model and also gives [None]. *)
Definition unpack3 (st : store A) (xyz : loc) : option (point A) :=
    match heap st !! xyz with
    | Some (ONums [x; y; z]) => Some (x, y, z)
    | _ => None
    end.

Definition step_xyz (x y z dx dy dz : A) : point A :=
    (x + dx * dt, y + dy * dt, z + dz * dt).

(** scene4.py, loop body with [points.append([x, y, z])]. *)
Fixpoint loop4 (n : nat) (points : loc) (x y z : A) (st : store A) : store A :=
    match n with
    | O => st
    | S n' =>
        let '(dx, dy, dz) := Lorenz.deriv sigma rho beta x y z in
        let '(x', y', z') := step_xyz x y z dx dy dz in
        let '(p, st1) := alloc (ONums [x'; y'; z']) st in
        loop4 n' points x' y' z' (list_append points p st1)
    end.

Definition get_lorenz_points4 (num_points : nat) (xyz : loc) (st : store A)
      : option (loc * store A) :=
    let '(points, st1) := alloc (ORefs []) st in
    match unpack3 st1 xyz with
    | Some (x, y, z) => Some (points, loop4 num_points points x y z st1)
    | None => None
    end.

(** scene5.py: the last [dx, dy, dz] are returned in a fresh list. *)
Fixpoint loop5 (n : nat) (points : loc) (x y z : A) (last : option (point A))
      (st : store A) : option (point A) * store A :=
    match n with
    | O => (last, st)
    | S n' =>
        let '(dx, dy, dz) := Lorenz.deriv sigma rho beta x y z in
        let '(x', y', z') := step_xyz x y z dx dy dz in
        let '(p, st1) := alloc (ONums [x'; y'; z']) st in
        loop5 n' points x' y' z' (Some (dx, dy, dz)) (list_append points p st1)
    end.

Definition get_lorenz_points5 (num_points : nat) (xyz : loc) (st : store A)
      : option ((loc * loc) * store A) :=
    let '(points, st1) := alloc (ORefs []) st in
    match unpack3 st1 xyz with
    | Some (x, y, z) =>
        match loop5 num_points points x y z None st1 with
        | (Some (dx, dy, dz), st2) =>
            let '(d, st3) := alloc (ONums [dx; dy; dz]) st2 in
            Some ((points, d), st3)
        | (None, _) => None   (* UnboundLocalError on [dx] *)
        end
    | None => None
    end.

(** scene6.py: [derivatives.append([dx, dy, dz])] before the update. *)
Fixpoint loop6 (n : nat) (points derivatives : loc) (x y z : A) (st : store A)
      : store A :=
    match n with
    | O => st
    | S n' =>
        let '(dx, dy, dz) := Lorenz.deriv sigma rho beta x y z in
        let '(d, st1) := alloc (ONums [dx; dy; dz]) st in
        let st2 := list_append derivatives d st1 in
        let '(x', y', z') := step_xyz x y z dx dy dz in
        let '(p, st3) := alloc (ONums [x'; y'; z']) st2 in
        loop6 n' points derivatives x' y' z' (list_append points p st3)
    end.

Definition get_lorenz_points6 (num_points : nat) (xyz : loc) (st : store A)
      : option ((loc * loc) * store A) :=
    let '(points, st1) := alloc (ORefs []) st in
    let '(derivatives, st2) := alloc (ORefs []) st1 in
    match unpack3 st2 xyz with
    | Some (x, y, z) =>
        Some ((points, derivatives), loop6 num_points points derivatives x y z st2)
    | None => None
    end.

End HeapIntegrator.

(** Reading back a returned list of points. *)
Definition deref_point {A : Type} (h : gmap loc (obj A)) (l : loc) : option (point A) :=
  match h !! l with
  | Some (ONums [a; b; c]) => Some (a, b, c)
  | _ => None
  end.

Fixpoint deref_list {A : Type} (h : gmap loc (obj A)) (ls : list loc)
    : option (list (point A)) :=
  match ls with
  | [] => Some []
  | l :: ls' =>
      match deref_point h l, deref_list h ls' with
      | Some p, Some ps => Some (p :: ps)
      | _, _ => None
      end
  end.

Definition deref_points {A : Type} (h : gmap loc (obj A)) (l : loc)
    : option (list (point A)) :=
  match h !! l with
  | Some (ORefs ls) => deref_list h ls
  | _ => None
  end.

(** Every object that existed before is still there, unchanged. *)
Definition frame {A : Type} (st0 st : store A) : Prop :=
  next_loc st0 <= next_loc st /\
  forall l, l < next_loc st0 -> heap st !! l = heap st0 !! l.

(** The list object at [pl] holds references, all in [[b, next_loc)], to
    objects reading back as [acc]; the list object itself lies below [b]. *)
Definition holds {A : Type} (b : loc) (st : store A) (pl : loc) (acc : list (point A)) : Prop :=
  pl < b /\ exists ls, heap st !! pl = Some (ORefs ls) /\
    deref_list (heap st) ls = Some acc /\ Forall (fun l => b <= l < next_loc st) ls.

End Heap.

(** ** scene7.py: the damped pendulum

    The closure [update_pendulum] captures [L], [theta_0], [omega] and
    [damping]; its numbers are modelled as real numbers.  The framework
    call [add_points_as_corners] appends control points to a [VMobject]'s
    [points]; which points it appends is the framework's business, so it is
    a parameter [corner_points] (the points appended, given the current
    points and the new corner). *)

Module Pendulum.
Local Open Scope R_scope.

Definition vec3 : Type := (R * R * R)%type.

(** Lines 81-82: [theta] and [theta_dot] at time [t]. *)
Definition pendulum_state (t theta_0 damping omega : R) : R * R :=
  (theta_0 * exp (- damping * t) * cos (omega * t),
   theta_0 * exp (- damping * t) * (- damping * cos (omega * t) - omega * sin (omega * t))).

(** [pts[-k:]] on a list: Python clamps the start index at 0. *)
Definition py_slice_last {T : Type} (k : nat) (pts : list T) : list T :=
  skipn (length pts - k) pts.

(** Lines 95-96 and 109-110. *)
Definition cap_points {T : Type} (pts : list T) : list T :=
  if Nat.ltb 150 (length pts) then py_slice_last 150 pts else pts.

Record frame_state : Type := mk_frame {
  time : R;
  bob_center : vec3;
  path_points : list vec3;
  pe_height : R;
  ke_height : R;
  phase_center : vec3;
  phase_points : list vec3
}.

Section Updater.
Variables (L theta_0 omega damping : R).
Variable corner_points : list vec3 -> vec3 -> list vec3.

Definition add_points_as_corners (pts : list vec3) (c : vec3) : list vec3 :=
    pts ++ corner_points pts c.

Definition update_pendulum (st : frame_state) (dt : R) : frame_state :=
    let t := time st + dt in
    let '(theta, theta_dot) := pendulum_state t theta_0 damping omega in
    let x := L * sin theta in
    let y := - L * cos theta in
    let new_bob_pos := (x, y, 0) in
    let path' := cap_points (add_points_as_corners (path_points st) new_bob_pos) in
    let PE := (1 - cos theta) * 2 in
    let KE := (theta_dot / omega) ^ 2 * 2 in
    let phase_x := theta * 2 in
    let phase_y := theta_dot in
    let phase_pos := (phase_x + 5, phase_y, 0) in
    let trail' := cap_points (add_points_as_corners (phase_points st) phase_pos) in
    mk_frame t new_bob_pos path' PE KE phase_pos trail'.

End Updater.
End Pendulum.
(** ** Further scene code *)

(** Exact real arithmetic: the value binary64 rounds. *)
#[export] Instance PyNum_R : PyNum R := {
  py_add := Rplus; py_sub := Rminus; py_mul := Rmult
}.

(** The mirror [(x, y, z) -> (-x, -y, z)]. *)
Definition mirror (p : point R) : point R :=
  let '(x, y, z) := p in (- x, - y, z)%R.

(** scene6.py [create_butterfly_effect_visual]: the two initial points,
    each turned into a path by [create_trajectory], which keeps the first
    result of [get_lorenz_points] with the default keyword arguments. *)
Definition create_trajectory64 (start_point : point f64) : list (point f64) :=
  fst (Lorenz.get_lorenz_points6 sigma_default rho_default beta_default dt_default
         2000 start_point).

Definition butterfly_initial_points : list (point f64) :=
  [(f64_of_Z 0, f64_of_Z 0, f64_of_Z 0); (f64_lit 1 2, f64_of_Z 0, f64_of_Z 0)].

Definition butterfly_paths : list (list (point f64)) :=
  map create_trajectory64 butterfly_initial_points.

(** The origin, the first of the butterfly initial points. *)
Definition origin64 : point f64 := (f64_of_Z 0, f64_of_Z 0, f64_of_Z 0).

Module Scene3.
Local Open Scope R_scope.

Definition TAU : R := 2 * PI.

(** Lines 14-22: the curve the dot moves along, [t] in [[0, TAU]]. *)
Definition complex_path (t : R) : R * R * R :=
  (cos t + 0.5 * cos (3 * t), sin t + 0.5 * sin (3 * t), 0).

(** Lines 61-69: the spiral, [np.array([...]) * 0.25], [t] in [[0, 4*TAU]]. *)
Definition spiral (t : R) : R * R * R :=
  (t * cos (3 * t) * 0.25, t * sin (3 * t) * 0.25, 0 * 0.25).

(** Lines 43-48: the centre of small circle [i], [i] in [range(5)]. *)
Definition small_circle_center (i : nat) : R * R * R :=
  (cos (INR i * TAU / 5), sin (INR i * TAU / 5), 0).

(** Line 10: [Circle(radius=1)]. *)
Definition main_circle_radius : R := 1.

(** Line 44: [Circle(radius=0.2)], the radius of each small circle. *)
Definition small_circle_radius : R := 0.2.

End Scene3.

Module Scene6.
Local Open Scope R_scope.

(** [create_accuracy_graph]: the plotted accuracy in percent after [x] days. *)
Definition accuracy_curve (x : R) : R := 100 * exp (-0.15 * x).

(** [np.linspace(start, stop, num)]: [num] points from [start] with step
    [(stop - start) / (num - 1)], the last one set to [stop]. *)
Definition linspace (start stop : R) (num : nat) : list R :=
  match num with
  | O => []
  | 1%nat => [start]
  | S n => map (fun k => INR k * ((stop - start) / INR n) + start) (seq 0 n) ++ [stop]
  end.

(** [create_uncertainty_cone]: the ends of the lines fanning out from
    [(-3, 0, 0)]. *)
Definition cone_start_point : R * R * R := (-3, 0, 0).
Definition cone_end_points : list (R * R * R) :=
  map (fun y => (3, y, 0)) (linspace (-2) 2 10).

End Scene6.

Module PendulumRun.
Import Pendulum.
Local Open Scope R_scope.

(** Lines 7-11: the constants captured by the closure. *)
Definition scene_L : R := 3.5.
Definition scene_g : R := 9.81.
Definition scene_theta_0 : R := PI / 3.
Definition scene_omega : R := sqrt (scene_g / scene_L).
Definition scene_damping : R := 0.1.

Section Run.
Variables (L theta_0 omega damping : R).
Variable corner_points : list vec3 -> vec3 -> list vec3.

(** The rendering loop calls the updater once per frame, with that frame's
    [dt]. *)
Fixpoint run_frames (st : frame_state) (dts : list R) : frame_state :=
  match dts with
  | [] => st
  | dt :: dts' => run_frames (update_pendulum L theta_0 omega damping corner_points st dt) dts'
  end.

(** Everything [add_points_as_corners] appended to the path over the frames. *)
Fixpoint appended_path (st : frame_state) (dts : list R) : list vec3 :=
  match dts with
  | [] => []
  | dt :: dts' =>
      let st' := update_pendulum L theta_0 omega damping corner_points st dt in
      corner_points (path_points st) (bob_center st') ++ appended_path st' dts'
  end.

(** The same for the phase-space trail. *)
Fixpoint appended_phase (st : frame_state) (dts : list R) : list vec3 :=
  match dts with
  | [] => []
  | dt :: dts' =>
      let st' := update_pendulum L theta_0 omega damping corner_points st dt in
      corner_points (phase_points st) (phase_center st') ++ appended_phase st' dts'
  end.

End Run.
End PendulumRun.

(** ** Concrete inputs over the rationals *)

Definition q_sigma : Q := 10.
Definition q_rho : Q := 28.
Definition q_beta : Q := 8 # 3.
Definition q_dt : Q := 1 # 100.

(** A scene passing [[10, 10, 10]] stored at location 0. *)
Definition q_store_a : store Q := mk_store {[0 := ONums [10; 10; 10]%Q]} 1.

(** Another store: unrelated objects around, the same argument at 3. *)
Definition q_store_b : store Q :=
  mk_store (<[3 := ONums [10; 10; 10]%Q]> {[0 := ONums [1]%Q; 1 := ORefs [0]]}) 4.

(** ** Reference descriptions of the trajectory *)

Module Orbit.
Section Orbit.
Context {A : Type} `{PyNum A}.
Variables sigma rho beta dt : A.
Local Open Scope nat_scope.

Abbreviation step := (Lorenz.euler_step sigma rho beta dt).

Abbreviation pre_states := (Lorenz.pre_states sigma rho beta dt).
Abbreviation deriv3 := (Lorenz.deriv3 sigma rho beta).

Lemma loop_pre_states (n : nat) (x y z : A) (acc : list (point A)) :
    Lorenz.loop sigma rho beta dt n x y z acc
    = acc ++ map step (pre_states n (x, y, z)).
  Proof.
    revert x y z acc; induction n as [|n IH]; intros x y z acc; simpl.
    - now rewrite app_nil_r.
    - rewrite IH, <- app_assoc; reflexivity.
  Qed.

Lemma get_pre_states (n : nat) (p : point A) :
    Lorenz.get_lorenz_points sigma rho beta dt n p = map step (pre_states n p).
  Proof. destruct p as [[x y] z]; apply loop_pre_states. Qed.

Lemma length_pre_states (n : nat) (p : point A) :
    length (pre_states n p) = n.
  Proof. revert p; induction n; simpl; auto. Qed.

Lemma iter_step_shift (i : nat) (p : point A) :
    Nat.iter i step (step p) = step (Nat.iter i step p).
  Proof. induction i as [|i IH]; simpl; congruence. Qed.

Lemma nth_pre_states (n i : nat) (p : point A) :
    i < n -> nth_error (pre_states n p) i = Some (Nat.iter i step p).
  Proof.
    revert n p; induction i as [|i IH]; intros [|n] p Hi; simpl; try lia.
    - reflexivity.
    - rewrite IH by lia. now rewrite iter_step_shift.
  Qed.

Lemma loop5_pre_states (n : nat) (x y z : A) (acc : list (point A)) last :
    Lorenz.loop5 sigma rho beta dt n x y z acc last
    = (acc ++ map step (pre_states n (x, y, z)),
       match n with
       | O => last
       | S n' => Some (deriv3 (Nat.iter n' step (x, y, z)))
       end).
  Proof.
    revert x y z acc last; induction n as [|n IH]; intros x y z acc last; simpl.
    - now rewrite app_nil_r.
    - rewrite IH, <- app_assoc. f_equal.
      destruct n as [|n]; [reflexivity|].
      simpl; rewrite <- iter_step_shift; reflexivity.
  Qed.

Lemma loop6_pre_states (n : nat) (x y z : A) (acc ds : list (point A)) :
    Lorenz.loop6 sigma rho beta dt n x y z acc ds
    = (acc ++ map step (pre_states n (x, y, z)),
       ds ++ map deriv3 (pre_states n (x, y, z))).
  Proof.
    revert x y z acc ds; induction n as [|n IH]; intros x y z acc ds; simpl.
    - now rewrite !app_nil_r.
    - rewrite IH, <- !app_assoc; reflexivity.
  Qed.

End Orbit.
End Orbit.

(** ** Heap facts *)

Module HeapFacts.
Import Heap.
Section HeapFacts.
Context {A : Type} `{PyNum A}.
Variables sigma rho beta dt : A.
Local Open Scope nat_scope.

Lemma frame_refl (st : store A) : frame st st.
Proof. split; auto. Qed.

Lemma frame_alloc (st0 st : store A) (o : obj A) :
  frame st0 st ->
  frame st0 (mk_store (<[next_loc st := o]> (heap st)) (S (next_loc st))).
Proof.
  intros [Hle Heq]; split; simpl; [lia|].
  intros l Hl. rewrite lookup_insert_ne by lia. auto.
Qed.

Lemma frame_append (st0 st : store A) (lst v : loc) :
  frame st0 st -> next_loc st0 <= lst -> frame st0 (list_append lst v st).
Proof.
  intros [Hle Heq] Hlst. unfold list_append.
  destruct (heap st !! lst) as [[ns|ls]|]; [split; auto| |split; auto].
  split; simpl; [lia|].
  intros l Hl. rewrite lookup_insert_ne by lia. auto.
Qed.

Ltac frame_step :=
  repeat match goal with
  | |- frame _ (list_append _ _ _) => apply frame_append; [|lia]
  | |- frame _ (mk_store (<[next_loc ?st := ?o]> (heap ?st)) (S (next_loc ?st))) =>
      apply (frame_alloc _ st o)
  end.

Lemma loop4_frame (n : nat) (pl : loc) (x y z : A) (st0 st : store A) :
  frame st0 st -> next_loc st0 <= pl ->
  frame st0 (loop4 sigma rho beta dt n pl x y z st).
Proof.
  revert x y z st; induction n as [|n IH]; intros x y z st Hf Hpl; simpl; auto.
  apply IH; [|lia]. frame_step. exact Hf.
Qed.

Lemma loop5_frame (n : nat) (pl : loc) (x y z : A) last (st0 st : store A) :
  frame st0 st -> next_loc st0 <= pl ->
  frame st0 (snd (loop5 sigma rho beta dt n pl x y z last st)).
Proof.
  revert x y z last st; induction n as [|n IH]; intros x y z last st Hf Hpl;
    simpl; auto.
  apply IH; [|lia]. frame_step. exact Hf.
Qed.

Lemma loop6_frame (n : nat) (pl dl : loc) (x y z : A) (st0 st : store A) :
  frame st0 st -> next_loc st0 <= pl -> next_loc st0 <= dl ->
  frame st0 (loop6 sigma rho beta dt n pl dl x y z st).
Proof.
  revert x y z st; induction n as [|n IH]; intros x y z st Hf Hpl Hdl; simpl; auto.
  apply IH; [|lia|lia]. frame_step. exact Hf.
Qed.

(** A successful unpacking reads an object that was live before the call. *)
Lemma unpack3_alloc_live (st : store A) (ls0 : list loc) (xyz : loc) (p : point A) :
  store_wf st ->
  unpack3 (mk_store (<[next_loc st := ORefs ls0]> (heap st)) (S (next_loc st))) xyz
    = Some p ->
  xyz < next_loc st /\ unpack3 st xyz = Some p.
Proof.
  intros Hwf. unfold unpack3; simpl.
  destruct (decide (xyz = next_loc st)) as [->|Hne].
  - rewrite lookup_insert_eq. discriminate.
  - rewrite lookup_insert_ne by congruence. intros Hp. split; [|exact Hp].
    destruct (heap st !! xyz) as [o|] eqn:E; [|discriminate].
    exact (Hwf _ _ E).
Qed.

Lemma wf_alloc (st : store A) (o : obj A) :
  store_wf st ->
  store_wf (mk_store (<[next_loc st := o]> (heap st)) (S (next_loc st))).
Proof.
  intros Hwf l o' Hl; simpl in *.
  apply lookup_insert_Some in Hl as [[<- _]|[_ Hl]]; [lia|].
  specialize (Hwf l o' Hl); simpl in Hwf; lia.
Qed.

Lemma deref_list_insert (h : gmap loc (obj A)) (k : loc) (o : obj A) (ls : list loc) :
  Forall (fun l => l <> k) ls ->
  deref_list (<[k := o]> h) ls = deref_list h ls.
Proof.
  induction 1 as [|l ls Hl _ IH]; simpl; auto.
  unfold deref_point. rewrite lookup_insert_ne by congruence. now rewrite IH.
Qed.

Lemma deref_list_snoc (h : gmap loc (obj A)) (ls : list loc) (l : loc)
    (acc : list (point A)) (q : point A) :
  deref_list h ls = Some acc -> deref_point h l = Some q ->
  deref_list h (ls ++ [l]) = Some (acc ++ [q]).
Proof.
  revert acc; induction ls as [|l' ls IH]; intros acc Hls Hl; simpl in *.
  - injection Hls as <-. now rewrite Hl.
  - destruct (deref_point h l') as [q'|]; [|discriminate].
    destruct (deref_list h ls) as [acc'|]; [|discriminate].
    injection Hls as <-. now rewrite (IH acc').
Qed.

Lemma list_append_fresh (st : store A) (pl : loc) (ls : list loc) (o : obj A) :
  heap st !! pl = Some (ORefs ls) -> pl < next_loc st ->
  list_append pl (next_loc st) (mk_store (<[next_loc st := o]> (heap st)) (S (next_loc st)))
  = mk_store (<[pl := ORefs (ls ++ [next_loc st])]> (<[next_loc st := o]> (heap st)))
      (S (next_loc st)).
Proof.
  intros Hpl Hlt. unfold list_append; simpl.
  rewrite lookup_insert_ne by lia. now rewrite Hpl.
Qed.

Lemma loop4_deref (n : nat) (pl : loc) (x y z : A) (st : store A)
    (ls : list loc) (acc : list (point A)) :
  heap st !! pl = Some (ORefs ls) -> deref_list (heap st) ls = Some acc ->
  Forall (fun l => pl < l < next_loc st) ls -> pl < next_loc st ->
  deref_points (heap (loop4 sigma rho beta dt n pl x y z st)) pl
  = Some (Lorenz.loop sigma rho beta dt n x y z acc).
Proof.
  revert x y z st ls acc.
  induction n as [|n IH]; intros x y z st ls acc Hpl Hls Hrange Hlt.
  - simpl. unfold deref_points. now rewrite Hpl.
  - simpl. rewrite (list_append_fresh st pl ls) by assumption.
    apply (IH _ _ _ _ (ls ++ [next_loc st])); simpl.
    + apply lookup_insert_eq.
    + rewrite deref_list_insert.
      * apply deref_list_snoc.
        -- rewrite deref_list_insert; [exact Hls|].
           eapply Forall_impl; [exact Hrange|]. simpl; intros l Hl; lia.
        -- unfold deref_point. now rewrite lookup_insert_eq.
      * apply Forall_app; split; [|constructor; [lia|constructor]].
        eapply Forall_impl; [exact Hrange|]. simpl; intros l Hl; lia.
    + apply Forall_app; split; [|constructor; [lia|constructor]].
      eapply Forall_impl; [exact Hrange|]. simpl; intros l Hl; lia.
    + lia.
Qed.

Lemma unpack3_alloc_none (st : store A) (ls0 : list loc) (xyz : loc) :
  store_wf st ->
  unpack3 (mk_store (<[next_loc st := ORefs ls0]> (heap st)) (S (next_loc st))) xyz = None ->
  unpack3 st xyz = None.
Proof.
  intros Hwf. unfold unpack3; simpl.
  destruct (decide (xyz = next_loc st)) as [->|Hne].
  - intros _. destruct (heap st !! next_loc st) as [o|] eqn:E; [|reflexivity].
    specialize (Hwf _ _ E); simpl in Hwf; lia.
  - now rewrite lookup_insert_ne by congruence.
Qed.

(** The scene4.py integrator on the heap returns a fresh list whose
    contents are the points of the pure integrator. *)
Lemma get_lorenz_points4_result (n : nat) (xyz : loc) (st : store A) :
  store_wf st ->
  match get_lorenz_points4 sigma rho beta dt n xyz st with
  | Some (r, s) => exists p, unpack3 st xyz = Some p /\
      deref_points (heap s) r = Some (Lorenz.get_lorenz_points sigma rho beta dt n p)
  | None => unpack3 st xyz = None
  end.
Proof.
  intros Hwf. unfold get_lorenz_points4, alloc; cbv beta iota zeta.
  destruct (unpack3 _ xyz) as [[[x y] z]|] eqn:E.
  - apply unpack3_alloc_live in E as [Hlt E]; [|exact Hwf].
    exists (x, y, z); split; [exact E|].
    apply (loop4_deref _ _ _ _ _ _ []); simpl.
    + apply lookup_insert_eq.
    + reflexivity.
    + constructor.
    + lia.
  - eapply unpack3_alloc_none; eassumption.
Qed.

End HeapFacts.
End HeapFacts.

(** ** Claims about the pure integrator *)

Section PureClaims.
Context {A : Type} `{PyNum A}.
Local Open Scope nat_scope.

(** C1: for [num_points >= 1], element 0 of [get_lorenz_points] is one
      explicit-Euler step from the initial state, and each element [i]
      with [1 <= i < num_points] is one step from element [i - 1]. *)
Theorem lorenz_points_euler_chain (sigma rho beta dt x0 y0 z0 : A)
      (num_points : nat) (Hn : 1 <= num_points) :
    let pts := Lorenz.get_lorenz_points sigma rho beta dt num_points (x0, y0, z0) in
    nth_error pts 0 = Some (Lorenz.euler_step sigma rho beta dt (x0, y0, z0)) /\
    forall i, 1 <= i < num_points ->
      exists prev, nth_error pts (i - 1) = Some prev /\
                   nth_error pts i = Some (Lorenz.euler_step sigma rho beta dt prev).
  Proof.
    cbv zeta; rewrite Orbit.get_pre_states. split.
    - rewrite nth_error_map, Orbit.nth_pre_states by lia. reflexivity.
    - intros [|j] Hj; [lia|].
      replace (S j - 1) with j by lia.
      exists (Lorenz.euler_step sigma rho beta dt
                (Nat.iter j (Lorenz.euler_step sigma rho beta dt) (x0, y0, z0))).
      rewrite !nth_error_map, !Orbit.nth_pre_states by lia.
      split; reflexivity.
  Qed.

(** C2: [get_lorenz_points] returns exactly [num_points] points; with
      [num_points = 0] the list is empty. *)
Theorem lorenz_points_length (sigma rho beta dt : A) (num_points : nat)
      (xyz : point A) :
    length (Lorenz.get_lorenz_points sigma rho beta dt num_points xyz) = num_points /\
    Lorenz.get_lorenz_points sigma rho beta dt 0 xyz = [].
  Proof.
    split.
    - rewrite Orbit.get_pre_states, length_map. apply Orbit.length_pre_states.
    - now destruct xyz as [[x y] z].
  Qed.

(** C4 (amended): for [num_points >= 1], the scene5.py variant returns the
      points of the base integrator and the derivative triple of the last
      iteration; the scene6.py variant returns the points of the base
      integrator and the list of the derivative triples of every iteration,
      in order, whose last element (index [num_points - 1]) is that final
      triple. *)
Theorem lorenz_variants_outputs (sigma rho beta dt : A) (num_points : nat)
      (xyz : point A) (Hn : 1 <= num_points) :
    let final := Lorenz.deriv3 sigma rho beta
                   (Nat.iter (num_points - 1) (Lorenz.euler_step sigma rho beta dt) xyz) in
    Lorenz.get_lorenz_points5 sigma rho beta dt num_points xyz
      = Some (Lorenz.get_lorenz_points sigma rho beta dt num_points xyz, final) /\
    Lorenz.get_lorenz_points6 sigma rho beta dt num_points xyz
      = (Lorenz.get_lorenz_points sigma rho beta dt num_points xyz,
         map (Lorenz.deriv3 sigma rho beta) (Lorenz.pre_states sigma rho beta dt num_points xyz)) /\
    nth_error (snd (Lorenz.get_lorenz_points6 sigma rho beta dt num_points xyz))
      (num_points - 1) = Some final.
  Proof.
    cbv zeta. destruct xyz as [[x y] z].
    assert (E6 : Lorenz.get_lorenz_points6 sigma rho beta dt num_points (x, y, z)
      = (Lorenz.get_lorenz_points sigma rho beta dt num_points (x, y, z),
         map (Lorenz.deriv3 sigma rho beta)
           (Lorenz.pre_states sigma rho beta dt num_points (x, y, z)))).
    { unfold Lorenz.get_lorenz_points6. rewrite Orbit.loop6_pre_states.
      now rewrite Orbit.get_pre_states. }
    split; [|split].
    - unfold Lorenz.get_lorenz_points5. rewrite Orbit.loop5_pre_states.
      rewrite Orbit.get_pre_states.
      destruct num_points as [|n]; [lia|]. simpl. now rewrite Nat.sub_0_r.
    - exact E6.
    - rewrite E6; simpl. rewrite nth_error_map, Orbit.nth_pre_states by lia.
      reflexivity.
  Qed.
End PureClaims.

(** ** Claims about concrete runs in binary64 *)

(** C3 (amended): with [num_points = 1], the defaults and initial state
    [(1, 1, 1)], the single returned point is exactly the float value of
    [(1 + 0*0.01, 1 + 26*0.01, 1 + (1*1 - 8/3*1)*0.01)], which is
    approximately [(1.0, 1.26, 0.983333)]. *)
Theorem single_step_point :
  lorenz64 1 c3_start = [c3_expected] /\
  Q_of_f64 (fst (fst c3_expected)) = Some 1%Q /\
  f64_near (snd (fst c3_expected)) (126 # 100) (1 # 1000000000) /\
  f64_near (snd c3_expected) (983333 # 1000000) (1 # 1000000).
Proof. vm_compute. repeat split; reflexivity. Qed.

(** C3 as stated fails: the third coordinate is not approximately
    [0.993333]; it is more than [0.001] away from it. *)
Lemma single_step_point_not_0993333 :
  ~ (exists p, lorenz64 1 c3_start = [p] /\
               f64_near (snd p) (993333 # 1000000) (1 # 1000)).
Proof.
  intros (p & Hp & Hnear). vm_compute in Hp. injection Hp as <-.
  vm_compute in Hnear. discriminate.
Qed.

(** C6: from [(10, 10, 10)] and [(10.01, 10, 10)] with the defaults and
    [num_points = 2000], the distance of the final points exceeds ten
    times the distance of the first points.  Both distances are
    non-negative, so this is [d_final^2 > 100 * d_first^2], decided on the
    exact values of the doubles. *)
Theorem trajectories_diverge :
  let ta := lorenz64 2000 start_a in
  let tb := lorenz64 2000 start_b in
  match dist2 (List.last ta start_a) (List.last tb start_b),
        dist2 (hd start_a ta) (hd start_b tb) with
  | Some d_final, Some d_first => (100 * d_first < d_final)%Q
  | _, _ => False
  end.
Proof. vm_compute. reflexivity. Qed.

(** ** Witnesses and counterexamples of the pure integrator *)


(** C1 at [num_points = 3] from [(1, 1, 1)] over the rationals. *)
Lemma lorenz_points_euler_chain_witness :
  1 <= 3 /\
  (let pts := Lorenz.get_lorenz_points q_sigma q_rho q_beta q_dt 3 (1, 1, 1)%Q in
   nth_error pts 0 = Some (Lorenz.euler_step q_sigma q_rho q_beta q_dt (1, 1, 1)%Q) /\
   forall i, 1 <= i < 3 ->
     exists prev, nth_error pts (i - 1) = Some prev /\
                  nth_error pts i = Some (Lorenz.euler_step q_sigma q_rho q_beta q_dt prev)).
Proof.
  split; [lia|]. apply (lorenz_points_euler_chain q_sigma q_rho q_beta q_dt 1%Q 1%Q 1%Q 3). lia.
Defined.

(** C4 amended at [num_points = 3] from [(1, 1, 1)] over the rationals. *)
Lemma lorenz_variants_outputs_witness :
  1 <= 3 /\
  (let final := Lorenz.deriv3 q_sigma q_rho q_beta
                  (Nat.iter (3 - 1) (Lorenz.euler_step q_sigma q_rho q_beta q_dt) (1, 1, 1)%Q) in
   Lorenz.get_lorenz_points5 q_sigma q_rho q_beta q_dt 3 (1, 1, 1)%Q
     = Some (Lorenz.get_lorenz_points q_sigma q_rho q_beta q_dt 3 (1, 1, 1)%Q, final) /\
   Lorenz.get_lorenz_points6 q_sigma q_rho q_beta q_dt 3 (1, 1, 1)%Q
     = (Lorenz.get_lorenz_points q_sigma q_rho q_beta q_dt 3 (1, 1, 1)%Q,
        map (Lorenz.deriv3 q_sigma q_rho q_beta)
          (Lorenz.pre_states q_sigma q_rho q_beta q_dt 3 (1, 1, 1)%Q)) /\
   nth_error (snd (Lorenz.get_lorenz_points6 q_sigma q_rho q_beta q_dt 3 (1, 1, 1)%Q))
     (3 - 1) = Some final).
Proof.
  split; [lia|]. apply (lorenz_variants_outputs q_sigma q_rho q_beta q_dt 3 (1, 1, 1)%Q). lia.
Defined.

(** C4 as stated fails for scene6.py: with [num_points = 2] its second
    result is the list of both iterations' derivative triples, not the
    final triple alone. *)
Lemma scene6_returns_all_derivatives :
  let final := Lorenz.deriv3 q_sigma q_rho q_beta
                 (Lorenz.euler_step q_sigma q_rho q_beta q_dt (1, 1, 1)%Q) in
  length (snd (Lorenz.get_lorenz_points6 q_sigma q_rho q_beta q_dt 2 (1, 1, 1)%Q)) = 2 /\
  snd (Lorenz.get_lorenz_points6 q_sigma q_rho q_beta q_dt 2 (1, 1, 1)%Q) <> [final].
Proof.
  cbv zeta. split.
  - reflexivity.
  - intros E. apply (f_equal (@length _)) in E. discriminate E.
Qed.

(** ** Claims about the heap behaviour of the integrators *)

Section HeapClaims.
Context {A : Type} `{PyNum A}.
Local Open Scope nat_scope.

(** C10: a call of any of the three [get_lorenz_points] on a well-formed
    store leaves the object passed as [xyz] unchanged; more generally every
    object that existed before the call is unchanged after it. *)
Theorem lorenz_argument_unchanged (sigma rho beta dt : A) (num_points : nat)
    (xyz : loc) (st : store A) (Hwf : store_wf st) :
  (forall r st', Heap.get_lorenz_points4 sigma rho beta dt num_points xyz st = Some (r, st') ->
     Heap.frame st st' /\ heap st' !! xyz = heap st !! xyz) /\
  (forall r st', Heap.get_lorenz_points5 sigma rho beta dt num_points xyz st = Some (r, st') ->
     Heap.frame st st' /\ heap st' !! xyz = heap st !! xyz) /\
  (forall r st', Heap.get_lorenz_points6 sigma rho beta dt num_points xyz st = Some (r, st') ->
     Heap.frame st st' /\ heap st' !! xyz = heap st !! xyz).
Proof.
  split; [|split]; intros r st'.
  - unfold Heap.get_lorenz_points4, Heap.alloc; cbv beta iota zeta.
    destruct (Heap.unpack3 _ xyz) as [[[x y] z]|] eqn:E; [|discriminate].
    intros [= <- <-].
    apply HeapFacts.unpack3_alloc_live in E as [Hlt _]; [|exact Hwf].
    assert (Hf : Heap.frame st (Heap.loop4 sigma rho beta dt num_points (next_loc st) x y z
                   (mk_store (<[next_loc st := ORefs []]> (heap st)) (S (next_loc st))))).
    { apply HeapFacts.loop4_frame; [|lia].
      apply HeapFacts.frame_alloc, HeapFacts.frame_refl. }
    split; [exact Hf|]. apply Hf, Hlt.
  - unfold Heap.get_lorenz_points5, Heap.alloc; cbv beta iota zeta.
    destruct (Heap.unpack3 _ xyz) as [[[x y] z]|] eqn:E; [|discriminate].
    apply HeapFacts.unpack3_alloc_live in E as [Hlt _]; [|exact Hwf].
    destruct (Heap.loop5 _ _ _ _ _ _ _ _ _ _ _) as [[[[dx dy] dz]|] st2] eqn:E5;
      [|discriminate].
    cbv beta iota zeta. intros [= <- <-].
    assert (Hf : Heap.frame st st2).
    { match type of E5 with Heap.loop5 _ _ _ _ ?n ?pl ?x ?y ?z ?l ?s = _ =>
        pose proof (HeapFacts.loop5_frame sigma rho beta dt n pl x y z l st s) as Hf5
      end.
      rewrite E5 in Hf5. apply Hf5; [|simpl; lia].
      apply HeapFacts.frame_alloc, HeapFacts.frame_refl. }
    apply (HeapFacts.frame_alloc _ _ (ONums [dx; dy; dz])) in Hf.
    split; [exact Hf|]. apply Hf, Hlt.
  - unfold Heap.get_lorenz_points6, Heap.alloc; cbv beta iota zeta.
    destruct (Heap.unpack3 _ xyz) as [[[x y] z]|] eqn:E; [|discriminate].
    apply HeapFacts.unpack3_alloc_live in E as [Hlt1 E];
      [|apply HeapFacts.wf_alloc, Hwf].
    apply HeapFacts.unpack3_alloc_live in E as [Hlt _]; [|exact Hwf].
    intros [= <- <-].
    assert (Hf : Heap.frame st (Heap.loop6 sigma rho beta dt num_points (next_loc st)
                   (S (next_loc st)) x y z
                   (mk_store (<[S (next_loc st) := ORefs []]>
                      (<[next_loc st := ORefs []]> (heap st))) (S (S (next_loc st)))))).
    { apply HeapFacts.loop6_frame; [|lia|lia].
      pose proof (HeapFacts.frame_alloc st st (ORefs []) (HeapFacts.frame_refl st)) as H1.
      pose proof (HeapFacts.frame_alloc st _ (@ORefs A []) H1) as H2.
      simpl in H2. exact H2. }
    split; [exact Hf|]. apply Hf, Hlt.
Qed.

(** C5: [get_lorenz_points] is deterministic.  Two calls, on any two
    well-formed stores (whatever else they hold) with argument objects of
    identical contents, either both fail at the unpacking of [xyz] or both
    return lists holding the same points (at [f64], bit-identical doubles),
    namely the points of the pure integrator on those contents. *)
Theorem lorenz_deterministic (sigma rho beta dt : A) (num_points : nat)
    (xyz1 xyz2 : loc) (st1 st2 : store A)
    (Hwf1 : store_wf st1) (Hwf2 : store_wf st2)
    (Harg : heap st1 !! xyz1 = heap st2 !! xyz2) :
  match Heap.get_lorenz_points4 sigma rho beta dt num_points xyz1 st1,
        Heap.get_lorenz_points4 sigma rho beta dt num_points xyz2 st2 with
  | Some (r1, s1), Some (r2, s2) =>
      exists pts, Heap.deref_points (heap s1) r1 = Some pts /\
                  Heap.deref_points (heap s2) r2 = Some pts /\
                  exists p, Heap.unpack3 st1 xyz1 = Some p /\
                            pts = Lorenz.get_lorenz_points sigma rho beta dt num_points p
  | None, None => True
  | _, _ => False
  end.
Proof.
  assert (Hu : Heap.unpack3 st1 xyz1 = Heap.unpack3 st2 xyz2)
    by (unfold Heap.unpack3; now rewrite Harg).
  pose proof (HeapFacts.get_lorenz_points4_result sigma rho beta dt num_points xyz1 st1 Hwf1) as R1.
  pose proof (HeapFacts.get_lorenz_points4_result sigma rho beta dt num_points xyz2 st2 Hwf2) as R2.
  destruct (Heap.get_lorenz_points4 sigma rho beta dt num_points xyz1 st1) as [[r1 s1]|];
  destruct (Heap.get_lorenz_points4 sigma rho beta dt num_points xyz2 st2) as [[r2 s2]|].
  - destruct R1 as (p1 & E1 & D1), R2 as (p2 & E2 & D2).
    rewrite Hu, E2 in E1. injection E1 as Ep. subst p1.
    exists (Lorenz.get_lorenz_points sigma rho beta dt num_points p2).
    split; [exact D1|]. split; [exact D2|].
    exists p2. split; [congruence|reflexivity].
  - destruct R1 as (p1 & E1 & _). congruence.
  - destruct R2 as (p2 & E2 & _). congruence.
  - exact I.
Qed.
End HeapClaims.

(** ** Witnesses of the heap claims *)

Lemma lorenz_argument_unchanged_witness :
  store_wf q_store_a /\
  (forall r st', Heap.get_lorenz_points4 q_sigma q_rho q_beta q_dt 3 0 q_store_a = Some (r, st') ->
     Heap.frame q_store_a st' /\ heap st' !! 0 = heap q_store_a !! 0) /\
  (forall r st', Heap.get_lorenz_points5 q_sigma q_rho q_beta q_dt 3 0 q_store_a = Some (r, st') ->
     Heap.frame q_store_a st' /\ heap st' !! 0 = heap q_store_a !! 0) /\
  (forall r st', Heap.get_lorenz_points6 q_sigma q_rho q_beta q_dt 3 0 q_store_a = Some (r, st') ->
     Heap.frame q_store_a st' /\ heap st' !! 0 = heap q_store_a !! 0).
Proof.
  assert (Hwf : store_wf q_store_a).
  { apply map_Forall_to_list. vm_compute. repeat constructor. }
  split; [exact Hwf|].
  exact (lorenz_argument_unchanged q_sigma q_rho q_beta q_dt 3 0 q_store_a Hwf).
Defined.

Lemma lorenz_deterministic_witness :
  store_wf q_store_a /\ store_wf q_store_b /\ heap q_store_a !! 0 = heap q_store_b !! 3 /\
  match Heap.get_lorenz_points4 q_sigma q_rho q_beta q_dt 3 0 q_store_a,
        Heap.get_lorenz_points4 q_sigma q_rho q_beta q_dt 3 3 q_store_b with
  | Some (r1, s1), Some (r2, s2) =>
      exists pts, Heap.deref_points (heap s1) r1 = Some pts /\
                  Heap.deref_points (heap s2) r2 = Some pts /\
                  exists p, Heap.unpack3 q_store_a 0 = Some p /\
                            pts = Lorenz.get_lorenz_points q_sigma q_rho q_beta q_dt 3 p
  | None, None => True
  | _, _ => False
  end.
Proof.
  assert (Hwa : store_wf q_store_a).
  { apply map_Forall_to_list. vm_compute. repeat constructor. }
  assert (Hwb : store_wf q_store_b).
  { apply map_Forall_to_list. vm_compute. repeat constructor. }
  assert (Harg : heap q_store_a !! 0 = heap q_store_b !! 3) by reflexivity.
  split; [exact Hwa|]. split; [exact Hwb|]. split; [exact Harg|].
  exact (lorenz_deterministic q_sigma q_rho q_beta q_dt 3 0 3 q_store_a q_store_b Hwa Hwb Harg).
Defined.

(** ** Claims about the pendulum *)

Module PendulumClaims.
Import Pendulum.
Local Open Scope R_scope.

(** C7: at [t = 0], [theta = theta_0] and [theta_dot = -damping * theta_0]. *)
Theorem pendulum_state_at_zero (theta_0 damping omega : R) :
  pendulum_state 0 theta_0 damping omega = (theta_0, - damping * theta_0).
Proof.
  unfold pendulum_state. rewrite !Rmult_0_r, exp_0, cos_0, sin_0.
  f_equal; ring.
Qed.

(** C8: for a non-negative amplitude [theta_0], and any damping, frequency
    and time, [|theta(t)| <= theta_0 * exp(-damping*t)].  The closure
    [update_pendulum] only ever receives the amplitude [theta_0 = PI/3]
    fixed by [construct] (lines 9-11), which is non-negative. *)
Theorem pendulum_envelope (t theta_0 damping omega : R) (Hpos : 0 <= theta_0) :
  Rabs (fst (pendulum_state t theta_0 damping omega)) <= theta_0 * exp (- damping * t).
Proof.
  unfold pendulum_state; simpl fst.
  rewrite !Rabs_mult, (Rabs_right (exp _)) by (left; apply exp_pos).
  rewrite (Rabs_right theta_0) by lra.
  rewrite <- (Rmult_1_r (theta_0 * exp (- damping * t))) at 2.
  apply Rmult_le_compat_l.
  - apply Rmult_le_pos; [lra | left; apply exp_pos].
  - apply Rabs_le. apply COS_bound.
Qed.

Lemma cap_points_spec {T : Type} (pts : list T) :
  (length (cap_points pts) <= 150)%nat /\
  exists dropped, pts = dropped ++ cap_points pts /\
                  (dropped <> [] -> length (cap_points pts) = 150%nat).
Proof.
  unfold cap_points, py_slice_last.
  destruct (Nat.ltb_spec 150 (length pts)) as [Hgt|Hle].
  - rewrite length_drop. split; [lia|].
    exists (firstn (length pts - 150) pts).
    split; [symmetry; apply firstn_skipn|].
    intros _. lia.
  - split; [exact Hle|]. exists []. split; [reflexivity|]. congruence.
Qed.

(** C9: after every call of [update_pendulum], the path and the phase trail
    hold at most 150 points, and each new buffer is what remains of the old
    buffer followed by the newly appended points after a prefix (the oldest
    points) is dropped; points are dropped only when exactly 150 remain. *)
Theorem trail_buffers_fifo (L theta_0 omega damping : R)
    (corner_points : list vec3 -> vec3 -> list vec3) (st : frame_state) (dt : R) :
  let st' := update_pendulum L theta_0 omega damping corner_points st dt in
  (length (path_points st') <= 150)%nat /\
  (length (phase_points st') <= 150)%nat /\
  (exists dropped,
     path_points st ++ corner_points (path_points st) (bob_center st')
       = dropped ++ path_points st' /\
     (dropped <> [] -> length (path_points st') = 150%nat)) /\
  (exists dropped,
     phase_points st ++ corner_points (phase_points st) (phase_center st')
       = dropped ++ phase_points st' /\
     (dropped <> [] -> length (phase_points st') = 150%nat)).
Proof.
  cbv zeta. unfold update_pendulum.
  destruct (pendulum_state (time st + dt) theta_0 damping omega) as [theta theta_dot].
  simpl. unfold add_points_as_corners.
  destruct (cap_points_spec (path_points st ++ corner_points (path_points st)
              (L * sin theta, - L * cos theta, 0))) as [H1 H2].
  destruct (cap_points_spec (phase_points st ++ corner_points (phase_points st)
              (theta * 2 + 5, theta_dot, 0))) as [H3 H4].
  auto.
Qed.

(** The envelope at the scene's constants, one second in. *)
Lemma pendulum_envelope_witness :
  0 <= PendulumRun.scene_theta_0 /\
  Rabs (fst (pendulum_state 1 PendulumRun.scene_theta_0 PendulumRun.scene_damping
               PendulumRun.scene_omega))
    <= PendulumRun.scene_theta_0 * exp (- PendulumRun.scene_damping * 1).
Proof.
  assert (H0 : 0 <= PendulumRun.scene_theta_0)
    by (unfold PendulumRun.scene_theta_0; pose proof PI_RGT_0; lra).
  split; [exact H0|].
  exact (pendulum_envelope 1 PendulumRun.scene_theta_0 PendulumRun.scene_damping
           PendulumRun.scene_omega H0).
Defined.

End PendulumClaims.

(** ** Further properties of the integrators *)

Module LorenzFacts.
Section Generic.
Context {A : Type} `{PyNum A}.
Variables sigma rho beta dt : A.
Local Open Scope nat_scope.

Abbreviation step := (Lorenz.euler_step sigma rho beta dt).

Lemma pre_states_app (m n : nat) (p : point A) :
  Lorenz.pre_states sigma rho beta dt (m + n) p
  = Lorenz.pre_states sigma rho beta dt m p
    ++ Lorenz.pre_states sigma rho beta dt n (Nat.iter m step p).
Proof.
  revert p; induction m as [|m IH]; intros p; simpl; [reflexivity|].
  rewrite IH, Orbit.iter_step_shift. reflexivity.
Qed.

Lemma last_cons_ne {T : Type} (x : T) (l : list T) (d : T) :
  l <> [] -> List.last (x :: l) d = List.last l d.
Proof. destruct l; [congruence|reflexivity]. Qed.

Lemma last_points (m : nat) (p : point A) :
  List.last (map step (Lorenz.pre_states sigma rho beta dt m p)) p = Nat.iter m step p.
Proof.
  assert (Hgen : forall m p d,
    List.last (map step (Lorenz.pre_states sigma rho beta dt (S m) p)) d
    = Nat.iter (S m) step p).
  { clear m p. induction m as [|m IH]; intros p d; [reflexivity|].
    change (map step (Lorenz.pre_states sigma rho beta dt (S (S m)) p))
      with (step p :: map step (Lorenz.pre_states sigma rho beta dt (S m) (step p))).
    rewrite last_cons_ne by (simpl; discriminate).
    rewrite IH. change (Nat.iter (S (S m)) step p) with (step (Nat.iter (S m) step p)).
    rewrite <- Orbit.iter_step_shift. reflexivity. }
  destruct m as [|m]; [reflexivity|]. apply Hgen.
Qed.

(** Running [m + n] steps is running [m] steps, then [n] more steps from
    the last point reached (from the initial state when [m = 0]). *)
Theorem lorenz_points_compose (m n : nat) (p : point A) :
  Lorenz.get_lorenz_points sigma rho beta dt (m + n) p
  = let first := Lorenz.get_lorenz_points sigma rho beta dt m p in
    first ++ Lorenz.get_lorenz_points sigma rho beta dt n (List.last first p).
Proof.
  cbv zeta. rewrite !Orbit.get_pre_states, last_points, pre_states_app, map_app.
  reflexivity.
Qed.

Lemma pre_states_iter (n : nat) (p : point A) :
  Lorenz.pre_states sigma rho beta dt n p = map (fun k => Nat.iter k step p) (seq 0 n).
Proof.
  revert p; induction n as [|n IH]; intros p; [reflexivity|].
  simpl. f_equal. rewrite IH, <- seq_shift, map_map.
  apply map_ext; intros k. apply Orbit.iter_step_shift.
Qed.

End Generic.
End LorenzFacts.

Module LorenzReal.
Local Open Scope R_scope.

Lemma step_mirror (sigma rho beta dt : R) (p : point R) :
  Lorenz.euler_step sigma rho beta dt (mirror p)
  = mirror (Lorenz.euler_step sigma rho beta dt p).
Proof.
  destruct p as [[x y] z]; cbn. f_equal; [f_equal|]; ring.
Qed.

(** In exact arithmetic the integrator respects the symmetry
    [(x, y, z) -> (-x, -y, z)] of the Lorenz equations: the trajectory from
    the mirrored initial state is the mirrored trajectory. *)
Theorem lorenz_mirror_symmetry (sigma rho beta dt : R) (n : nat) (p : point R) :
  Lorenz.get_lorenz_points sigma rho beta dt n (mirror p)
  = map mirror (Lorenz.get_lorenz_points sigma rho beta dt n p).
Proof.
  rewrite !Orbit.get_pre_states, map_map.
  assert (Hs : forall q, Lorenz.pre_states sigma rho beta dt n (mirror q)
                         = map mirror (Lorenz.pre_states sigma rho beta dt n q)).
  { induction n as [|n IH]; intros q; [reflexivity|].
    simpl. rewrite step_mirror, IH. reflexivity. }
  rewrite Hs, map_map. apply map_ext; intros q. apply step_mirror.
Qed.

Lemma iter_z_axis (sigma rho beta dt z0 : R) (k : nat) :
  Nat.iter k (Lorenz.euler_step sigma rho beta dt) (0, 0, z0)
  = (0, 0, z0 * (1 - beta * dt) ^ k).
Proof.
  induction k as [|k IH]; simpl.
  - f_equal; ring.
  - rewrite IH; cbn. f_equal; [f_equal|]; ring.
Qed.

(** In exact arithmetic a trajectory started on the z-axis stays on it and
    decays geometrically: point [k] is [(0, 0, z0 * (1 - beta*dt)^(k+1))]. *)
Theorem lorenz_z_axis (sigma rho beta dt z0 : R) (n : nat) :
  Lorenz.get_lorenz_points sigma rho beta dt n (0, 0, z0)
  = map (fun k => (0, 0, z0 * (1 - beta * dt) ^ S k)) (seq 0 n).
Proof.
  rewrite Orbit.get_pre_states, LorenzFacts.pre_states_iter, map_map.
  apply map_ext; intros k.
  change (Lorenz.euler_step sigma rho beta dt
            (Nat.iter k (Lorenz.euler_step sigma rho beta dt) (0, 0, z0)))
    with (Nat.iter (S k) (Lorenz.euler_step sigma rho beta dt) (0, 0, z0)).
  apply iter_z_axis.
Qed.

End LorenzReal.


Lemma origin64_fixed :
  Lorenz.euler_step sigma_default rho_default beta_default dt_default origin64 = origin64.
Proof. vm_compute; reflexivity. Qed.

Lemma pre_states_origin64 (m : nat) :
  Lorenz.pre_states sigma_default rho_default beta_default dt_default m origin64
  = repeat origin64 m.
Proof.
  induction m as [|m IH]; [reflexivity|].
  cbn [Lorenz.pre_states repeat]. rewrite origin64_fixed, IH. reflexivity.
Qed.

Lemma lorenz64_origin (m : nat) : lorenz64 m origin64 = repeat origin64 m.
Proof.
  unfold lorenz64. rewrite Orbit.get_pre_states, pre_states_origin64.
  induction m as [|m IH]; [reflexivity|].
  cbn [repeat map]. rewrite origin64_fixed, IH. reflexivity.
Qed.

(** In binary64 with the default parameters the origin is a fixed point of
    the loop, so any number of steps from [[0, 0, 0]] stays there; the first
    path of scene6.py's [create_butterfly_effect_visual] is 2000 copies of
    the origin. *)
Theorem butterfly_origin_path (n : nat) :
  lorenz64 n origin64 = repeat origin64 n /\
  hd [] butterfly_paths = repeat origin64 2000.
Proof.
  split; [apply lorenz64_origin|].
  change (hd [] butterfly_paths) with (create_trajectory64 origin64).
  unfold create_trajectory64. generalize 2000%nat as m. intros m.
  unfold Lorenz.get_lorenz_points6, origin64.
  rewrite Orbit.loop6_pre_states. cbn [fst]. rewrite app_nil_l.
  rewrite <- Orbit.get_pre_states. apply lorenz64_origin.
Qed.

Module HeapRefine.
Import Heap.
Section HeapRefine.
Context {A : Type} `{PyNum A}.
Variables sigma rho beta dt : A.
Local Open Scope nat_scope.

Lemma holds_alloc (b : loc) (st : store A) (pl : loc) acc (o : obj A) :
  holds b st pl acc -> b <= next_loc st ->
  holds b (mk_store (<[next_loc st := o]> (heap st)) (S (next_loc st))) pl acc.
Proof.
  intros [Hpl (ls & Hls & Hd & Hr)] Hb. split; [exact Hpl|].
  exists ls; simpl. split; [|split].
  - rewrite lookup_insert_ne by lia. exact Hls.
  - rewrite HeapFacts.deref_list_insert; [exact Hd|].
    eapply Forall_impl; [exact Hr|]. simpl; intros l Hl; lia.
  - eapply Forall_impl; [exact Hr|]. simpl; intros l Hl; lia.
Qed.

Lemma holds_append_self (b : loc) (st : store A) (pl v : loc) acc (q : point A) :
  holds b st pl acc -> deref_point (heap st) v = Some q -> b <= v < next_loc st ->
  holds b (list_append pl v st) pl (acc ++ [q]).
Proof.
  intros [Hpl (ls & Hls & Hd & Hr)] Hv Hvr. split; [exact Hpl|].
  unfold list_append. rewrite Hls. exists (ls ++ [v]); simpl. split; [|split].
  - apply lookup_insert_eq.
  - rewrite HeapFacts.deref_list_insert.
    + apply HeapFacts.deref_list_snoc; assumption.
    + apply Forall_app; split; [|constructor; [lia|constructor]].
      eapply Forall_impl; [exact Hr|]. simpl; intros l Hl; lia.
  - apply Forall_app; split; [exact Hr|constructor; [lia|constructor]].
Qed.

Lemma holds_append_other (b : loc) (st : store A) (pl pl' v : loc) acc :
  holds b st pl acc -> pl' <> pl -> pl' < b ->
  holds b (list_append pl' v st) pl acc.
Proof.
  intros Hh Hne Hb. unfold list_append.
  destruct (heap st !! pl') as [[ns|ls']|]; [exact Hh| |exact Hh].
  destruct Hh as [Hpl (ls & Hls & Hd & Hr)]. split; [exact Hpl|].
  exists ls; simpl. split; [|split].
  - rewrite lookup_insert_ne by congruence. exact Hls.
  - rewrite HeapFacts.deref_list_insert; [exact Hd|].
    eapply Forall_impl; [exact Hr|]. simpl; intros l Hl; lia.
  - exact Hr.
Qed.

Lemma deref_alloc (st : store A) (a c d : A) :
  deref_point (<[next_loc st := ONums [a; c; d]]> (heap st)) (next_loc st) = Some (a, c, d).
Proof. unfold deref_point. now rewrite lookup_insert_eq. Qed.

Lemma wf_append (st : store A) (pl v : loc) :
  store_wf st -> store_wf (list_append pl v st).
Proof.
  intros Hwf. unfold list_append.
  destruct (heap st !! pl) as [[ns|ls]|] eqn:E; [exact Hwf| |exact Hwf].
  intros l o Hl; simpl in *.
  apply lookup_insert_Some in Hl as [[<- _]|[_ Hl]].
  - exact (Hwf _ _ E).
  - exact (Hwf _ _ Hl).
Qed.

Lemma next_loc_append (st : store A) (pl v : loc) :
  next_loc (list_append pl v st) = next_loc st.
Proof. unfold list_append. destruct (heap st !! pl) as [[]|]; reflexivity. Qed.

Lemma loop6_holds (n : nat) (b pl dl : loc) (x y z : A) (st : store A) acc dacc :
  holds b st pl acc -> holds b st dl dacc -> pl <> dl -> b <= next_loc st ->
  store_wf st ->
  let st' := loop6 sigma rho beta dt n pl dl x y z st in
  let r := Lorenz.loop6 sigma rho beta dt n x y z acc dacc in
  holds b st' pl (fst r) /\ holds b st' dl (snd r) /\ store_wf st'.
Proof.
  revert x y z st acc dacc.
  induction n as [|n IH]; intros x y z st acc dacc Hp Hd Hne Hb Hwf; cbv zeta.
  - simpl. auto.
  - cbn [loop6 Lorenz.loop6].
    destruct (Lorenz.deriv sigma rho beta x y z) as [[dx dy] dz].
    unfold alloc, step_xyz; cbn [fst snd next_loc heap].
    set (st1 := mk_store (<[next_loc st := ONums [dx; dy; dz]]> (heap st)) (S (next_loc st))).
    set (st2 := list_append dl (next_loc st) st1).
    assert (Hn2 : next_loc st2 = S (next_loc st))
      by (unfold st2; now rewrite next_loc_append).
    assert (Hwf2 : store_wf st2)
      by (apply wf_append, HeapFacts.wf_alloc, Hwf).
    apply IH.
    + apply holds_append_self.
      * apply holds_alloc; [|lia].
        apply holds_append_other; [| |destruct Hd; lia]; [|congruence].
        apply holds_alloc; [exact Hp|lia].
      * apply deref_alloc.
      * simpl; lia.
    + apply holds_append_other; [| |destruct Hp; lia]; [|congruence].
      apply holds_alloc; [|lia].
      apply holds_append_self.
      * apply holds_alloc; [exact Hd|lia].
      * apply deref_alloc.
      * simpl; lia.
    + exact Hne.
    + rewrite next_loc_append; simpl; lia.
    + apply wf_append. apply HeapFacts.wf_alloc, Hwf2.
Qed.

Lemma loop5_holds (n : nat) (b pl : loc) (x y z : A) last (st : store A) acc :
  holds b st pl acc -> b <= next_loc st -> store_wf st ->
  let r := loop5 sigma rho beta dt n pl x y z last st in
  let q := Lorenz.loop5 sigma rho beta dt n x y z acc last in
  holds b (snd r) pl (fst q) /\ fst r = snd q /\ store_wf (snd r) /\
  next_loc st <= next_loc (snd r).
Proof.
  revert x y z last st acc.
  induction n as [|n IH]; intros x y z last st acc Hp Hb Hwf; cbv zeta.
  - simpl. auto.
  - cbn [loop5 Lorenz.loop5].
    destruct (Lorenz.deriv sigma rho beta x y z) as [[dx dy] dz].
    unfold alloc, step_xyz; cbn [fst snd next_loc heap].
    edestruct IH as (H1 & H2 & H3 & H4).
    + apply holds_append_self.
      * apply holds_alloc; [exact Hp|lia].
      * apply deref_alloc.
      * simpl; lia.
    + rewrite next_loc_append; simpl; lia.
    + apply wf_append, HeapFacts.wf_alloc, Hwf.
    + split; [exact H1|]. split; [exact H2|]. split; [exact H3|].
      rewrite next_loc_append in H4; simpl in H4; lia.
Qed.

Lemma holds_deref (b : loc) (st : store A) (pl : loc) acc :
  holds b st pl acc -> deref_points (heap st) pl = Some acc.
Proof.
  intros [_ (ls & Hls & Hd & _)]. unfold deref_points. now rewrite Hls.
Qed.

Lemma wf_fresh (st : store A) (l : loc) :
  store_wf st -> next_loc st <= l -> heap st !! l = None.
Proof.
  intros Hwf Hl. destruct (heap st !! l) as [o|] eqn:E; [|reflexivity].
  specialize (Hwf _ _ E); simpl in Hwf; lia.
Qed.

Lemma holds_new (st : store A) :
  holds (S (next_loc st)) (mk_store (<[next_loc st := ORefs []]> (heap st)) (S (next_loc st)))
    (next_loc st) [].
Proof.
  split; [lia|]. exists []; simpl. split; [apply lookup_insert_eq|].
  split; [reflexivity|constructor].
Qed.

Lemma pure_loop5_some (n : nat) (x y z : A) acc last :
  last <> None -> snd (Lorenz.loop5 sigma rho beta dt n x y z acc last) <> None.
Proof.
  revert x y z acc last; induction n as [|n IH]; intros x y z acc last Hl; [exact Hl|].
  cbn [Lorenz.loop5]. destruct (Lorenz.deriv sigma rho beta x y z) as [[dx dy] dz].
  apply IH. discriminate.
Qed.

Lemma pure_loop5_last (n : nat) (x y z : A) acc last :
  snd (Lorenz.loop5 sigma rho beta dt (S n) x y z acc last) <> None.
Proof.
  cbn [Lorenz.loop5]. destruct (Lorenz.deriv sigma rho beta x y z) as [[dx dy] dz].
  apply pure_loop5_some. discriminate.
Qed.

Lemma holds_empty (b : loc) (st : store A) (pl : loc) :
  pl < b -> heap st !! pl = Some (ORefs []) -> holds b st pl [].
Proof.
  intros Hb Hpl. split; [exact Hb|]. exists []. split; [exact Hpl|].
  split; [reflexivity|constructor].
Qed.

(** The cases of the scene6.py heap integrator, by the unpacking. *)
Lemma heap_points6_cases (n : nat) (xyz : loc) (st : store A) (Hwf : store_wf st) :
  match get_lorenz_points6 sigma rho beta dt n xyz st with
  | Some ((pl, dl), st') => exists p, unpack3 st xyz = Some p /\
      heap st !! pl = None /\ heap st !! dl = None /\ pl <> dl /\
      deref_points (heap st') pl = Some (fst (Lorenz.get_lorenz_points6 sigma rho beta dt n p)) /\
      deref_points (heap st') dl = Some (snd (Lorenz.get_lorenz_points6 sigma rho beta dt n p)) /\
      store_wf st'
  | None => unpack3 st xyz = None
  end.
Proof.
  unfold get_lorenz_points6, alloc; cbv beta iota zeta.
  destruct (unpack3 _ xyz) as [[[x y] z]|] eqn:E.
  - apply HeapFacts.unpack3_alloc_live in E as [_ E]; [|apply HeapFacts.wf_alloc, Hwf].
    apply HeapFacts.unpack3_alloc_live in E as [_ E]; [|exact Hwf].
    exists (x, y, z). split; [exact E|].
    split; [apply wf_fresh; auto|]. split; [apply wf_fresh; [auto|simpl; lia]|].
    split; [simpl; lia|].
    edestruct (loop6_holds n (S (S (next_loc st))) (next_loc st) (S (next_loc st)) x y z
                 (mk_store (<[S (next_loc st) := ORefs []]>
                    (<[next_loc st := ORefs []]> (heap st))) (S (S (next_loc st)))) [] [])
      as (H1 & H2 & H3).
    + apply holds_empty; [lia|]. simpl.
      rewrite lookup_insert_ne by lia. apply lookup_insert_eq.
    + apply holds_empty; [lia|]. simpl. apply lookup_insert_eq.
    + lia.
    + simpl; lia.
    + exact (HeapFacts.wf_alloc _ (ORefs []) (HeapFacts.wf_alloc st (ORefs []) Hwf)).
    + split; [exact (holds_deref _ _ _ _ H1)|].
      split; [exact (holds_deref _ _ _ _ H2)|exact H3].
  - eapply HeapFacts.unpack3_alloc_none; [exact Hwf|].
    eapply HeapFacts.unpack3_alloc_none; [apply HeapFacts.wf_alloc, Hwf|exact E].
Qed.

(** The cases of the scene5.py heap integrator, by the unpacking. *)
Lemma heap_points5_cases (n : nat) (xyz : loc) (st : store A) (Hwf : store_wf st) :
  match get_lorenz_points5 sigma rho beta dt n xyz st with
  | Some ((pl, d), st') => exists p pts last, unpack3 st xyz = Some p /\
      Lorenz.get_lorenz_points5 sigma rho beta dt n p = Some (pts, last) /\
      heap st !! pl = None /\ heap st !! d = None /\ pl <> d /\
      deref_points (heap st') pl = Some pts /\ deref_point (heap st') d = Some last /\
      store_wf st'
  | None => unpack3 st xyz = None \/ n = 0
  end.
Proof.
  unfold get_lorenz_points5, alloc; cbv beta iota zeta.
  destruct (unpack3 _ xyz) as [[[x y] z]|] eqn:E.
  - apply HeapFacts.unpack3_alloc_live in E as [_ E]; [|exact Hwf].
    edestruct (loop5_holds n (S (next_loc st)) (next_loc st) x y z None
                 (mk_store (<[next_loc st := ORefs []]> (heap st)) (S (next_loc st))) [])
      as (H1 & H2 & H3 & H4).
    + apply holds_empty; [lia|]. simpl. apply lookup_insert_eq.
    + simpl; lia.
    + apply HeapFacts.wf_alloc, Hwf.
    + destruct (loop5 sigma rho beta dt n (next_loc st) x y z None _) as [last st2] eqn:E5.
      cbn [fst snd] in H1, H2, H3, H4.
      destruct last as [[[dx dy] dz]|].
      * cbv beta iota zeta.
        exists (x, y, z), (fst (Lorenz.loop5 sigma rho beta dt n x y z [] None)), (dx, dy, dz).
        split; [exact E|]. split.
        { cbn [Lorenz.get_lorenz_points5].
          destruct (Lorenz.loop5 sigma rho beta dt n x y z [] None) as [pts l5].
          cbn in H2 |- *. now rewrite <- H2. }
        simpl in H4.
        split; [apply wf_fresh; auto|]. split; [apply wf_fresh; [auto|simpl; lia]|].
        split; [simpl; lia|].
        split; [apply (holds_deref (S (next_loc st))), holds_alloc; [exact H1|lia]|].
        split; [apply deref_alloc|].
        apply HeapFacts.wf_alloc, H3.
      * right. destruct n as [|n]; [reflexivity|].
        exfalso. apply (pure_loop5_last n x y z [] None). now rewrite <- H2.
  - left. eapply HeapFacts.unpack3_alloc_none; [exact Hwf|exact E].
Qed.

(** scene6.py on the heap: called on a well-formed store with an argument
    holding three numbers, [get_lorenz_points] returns two new, distinct
    lists (no object of the caller is reused) that read back as the points
    and the derivatives of the pure integrator from those numbers, and the
    store stays well-formed. *)
Theorem heap_points6_refine (n : nat) (xyz : loc) (st : store A) (x y z : A)
    (Hwf : store_wf st) (Hxyz : heap st !! xyz = Some (ONums [x; y; z])) :
  exists pl dl st', get_lorenz_points6 sigma rho beta dt n xyz st = Some ((pl, dl), st') /\
    heap st !! pl = None /\ heap st !! dl = None /\ pl <> dl /\
    deref_points (heap st') pl = Some (fst (Lorenz.get_lorenz_points6 sigma rho beta dt n (x, y, z))) /\
    deref_points (heap st') dl = Some (snd (Lorenz.get_lorenz_points6 sigma rho beta dt n (x, y, z))) /\
    store_wf st'.
Proof.
  assert (Hu : unpack3 st xyz = Some (x, y, z)) by (unfold unpack3; now rewrite Hxyz).
  pose proof (heap_points6_cases n xyz st Hwf) as R.
  destruct (get_lorenz_points6 sigma rho beta dt n xyz st) as [[[pl dl] st']|];
    [|congruence].
  destruct R as (p & Hp & R). rewrite Hu in Hp. injection Hp as <-.
  exists pl, dl, st'. split; [reflexivity|exact R].
Qed.

(** scene5.py on the heap: called on a well-formed store with an argument
    holding three numbers, [get_lorenz_points] fails exactly when
    [num_points = 0] (the loop never binds [dx]); otherwise it returns a
    new list that reads back as the points of the pure integrator and a
    new list holding its last derivative triple, and the store stays
    well-formed. *)
Theorem heap_points5_refine (n : nat) (xyz : loc) (st : store A) (x y z : A)
    (Hwf : store_wf st) (Hxyz : heap st !! xyz = Some (ONums [x; y; z])) :
  (n = 0 -> get_lorenz_points5 sigma rho beta dt n xyz st = None) /\
  (n <> 0 -> exists pl d st' pts last,
    get_lorenz_points5 sigma rho beta dt n xyz st = Some ((pl, d), st') /\
    Lorenz.get_lorenz_points5 sigma rho beta dt n (x, y, z) = Some (pts, last) /\
    heap st !! pl = None /\ heap st !! d = None /\ pl <> d /\
    deref_points (heap st') pl = Some pts /\ deref_point (heap st') d = Some last /\
    store_wf st').
Proof.
  assert (Hu : unpack3 st xyz = Some (x, y, z)) by (unfold unpack3; now rewrite Hxyz).
  pose proof (heap_points5_cases n xyz st Hwf) as R.
  destruct (get_lorenz_points5 sigma rho beta dt n xyz st) as [[[pl d] st']|].
  - destruct R as (p & pts & last & Hp & Hg & R). rewrite Hu in Hp. injection Hp as <-.
    split.
    + intros ->. discriminate Hg.
    + intros _. exists pl, d, st', pts, last. split; [reflexivity|]. split; [exact Hg|exact R].
  - split; [reflexivity|]. intros Hn. destruct R as [R|R]; [congruence|contradiction].
Qed.

End HeapRefine.
End HeapRefine.

Lemma q_store_a_wf : store_wf q_store_a.
Proof. apply map_Forall_to_list. vm_compute. repeat constructor. Qed.

Lemma heap_points6_refine_witness :
  store_wf q_store_a /\ heap q_store_a !! 0 = Some (ONums [10; 10; 10]%Q) /\
  exists pl dl st', Heap.get_lorenz_points6 q_sigma q_rho q_beta q_dt 3 0 q_store_a
                      = Some ((pl, dl), st') /\
    heap q_store_a !! pl = None /\ heap q_store_a !! dl = None /\ pl <> dl /\
    Heap.deref_points (heap st') pl
      = Some (fst (Lorenz.get_lorenz_points6 q_sigma q_rho q_beta q_dt 3 (10, 10, 10)%Q)) /\
    Heap.deref_points (heap st') dl
      = Some (snd (Lorenz.get_lorenz_points6 q_sigma q_rho q_beta q_dt 3 (10, 10, 10)%Q)) /\
    store_wf st'.
Proof.
  assert (Hx : heap q_store_a !! 0 = Some (ONums [10; 10; 10]%Q)) by reflexivity.
  split; [exact q_store_a_wf|]. split; [exact Hx|].
  exact (HeapRefine.heap_points6_refine q_sigma q_rho q_beta q_dt 3 0 q_store_a 10%Q 10%Q 10%Q
           q_store_a_wf Hx).
Defined.

Lemma heap_points5_refine_witness :
  store_wf q_store_a /\ heap q_store_a !! 0 = Some (ONums [10; 10; 10]%Q) /\
  (3%nat = 0%nat -> Heap.get_lorenz_points5 q_sigma q_rho q_beta q_dt 3 0 q_store_a = None) /\
  (3%nat <> 0%nat -> exists pl d st' pts last,
    Heap.get_lorenz_points5 q_sigma q_rho q_beta q_dt 3 0 q_store_a = Some ((pl, d), st') /\
    Lorenz.get_lorenz_points5 q_sigma q_rho q_beta q_dt 3 (10, 10, 10)%Q = Some (pts, last) /\
    heap q_store_a !! pl = None /\ heap q_store_a !! d = None /\ pl <> d /\
    Heap.deref_points (heap st') pl = Some pts /\ Heap.deref_point (heap st') d = Some last /\
    store_wf st').
Proof.
  assert (Hx : heap q_store_a !! 0 = Some (ONums [10; 10; 10]%Q)) by reflexivity.
  split; [exact q_store_a_wf|]. split; [exact Hx|].
  exact (HeapRefine.heap_points5_refine q_sigma q_rho q_beta q_dt 3 0 q_store_a 10%Q 10%Q 10%Q
           q_store_a_wf Hx).
Defined.

Module PendulumFacts.
Import Pendulum PendulumRun.
Local Open Scope R_scope.

(** scene7.py [update_pendulum]: the [theta_dot] the updater computes is
    the time derivative of the [theta] it computes. *)
Theorem theta_derivative (theta_0 damping omega t : R) :
  derivable_pt_lim (fun s => fst (pendulum_state s theta_0 damping omega)) t
    (snd (pendulum_state t theta_0 damping omega)).
Proof.
  unfold pendulum_state; cbn [fst snd].
  assert (He : derivable_pt_lim (fun s => exp (- damping * s)) t
                 (- damping * exp (- damping * t))).
  { replace (- damping * exp (- damping * t)) with (exp (- damping * t) * (- damping * 1)) by ring.
    apply (derivable_pt_lim_comp (fun s => - damping * s) exp).
    - apply derivable_pt_lim_scal, derivable_pt_lim_id.
    - apply derivable_pt_lim_exp. }
  assert (Hc : derivable_pt_lim (fun s => cos (omega * s)) t (- omega * sin (omega * t))).
  { replace (- omega * sin (omega * t)) with (- sin (omega * t) * (omega * 1)) by ring.
    apply (derivable_pt_lim_comp (fun s => omega * s) cos).
    - apply derivable_pt_lim_scal, derivable_pt_lim_id.
    - apply derivable_pt_lim_cos. }
  replace (theta_0 * exp (- damping * t) * (- damping * cos (omega * t) - omega * sin (omega * t)))
    with ((theta_0 * (- damping * exp (- damping * t))) * cos (omega * t)
          + theta_0 * exp (- damping * t) * (- omega * sin (omega * t))) by ring.
  apply (derivable_pt_lim_mult (fun s => theta_0 * exp (- damping * s)) (fun s => cos (omega * s))).
  - apply (derivable_pt_lim_scal (fun s => exp (- damping * s))). exact He.
  - exact Hc.
Qed.

Lemma pend_exp_le_1 (x : R) : x <= 0 -> exp x <= 1.
Proof.
  intros Hx. rewrite <- exp_0. destruct (Req_dec x 0) as [->|Hne]; [lra|].
  left. apply exp_increasing. lra.
Qed.

(** scene7.py [update_pendulum]: the bob is always at distance [L] from
    the pivot in the plane [z = 0], the potential-energy bar lies in
    [[0, 4]], and its height is proportional to the height of the bob
    above its lowest point: [PE * L = 2 * (y + L)]. *)
Theorem bob_geometry (L theta_0 omega damping : R) corner_points (st : frame_state) (dt : R) :
  let st' := update_pendulum L theta_0 omega damping corner_points st dt in
  let '(x, y, z) := bob_center st' in
  x ^ 2 + y ^ 2 = L ^ 2 /\ z = 0 /\
  0 <= pe_height st' <= 4 /\ pe_height st' * L = 2 * (y + L).
Proof.
  cbv zeta. unfold update_pendulum.
  destruct (pendulum_state (time st + dt) theta_0 damping omega) as [theta theta_dot].
  cbn [bob_center pe_height].
  pose proof (sin2_cos2 theta) as Hsc. unfold Rsqr in Hsc.
  pose proof (COS_bound theta) as Hc.
  split; [nra|]. split; [reflexivity|]. split; [lra|]. ring.
Qed.

(** scene7.py [update_pendulum]: for [omega <> 0] the kinetic-energy bar
    is bounded by the decaying envelope
    [2 * theta_0^2 * exp(-damping * t)^2 * (1 + damping^2 / omega^2)]. *)
Theorem ke_bound (L theta_0 omega damping : R) corner_points (st : frame_state) (dt : R)
    (Homega : omega <> 0) :
  let st' := update_pendulum L theta_0 omega damping corner_points st dt in
  ke_height st' <=
    2 * theta_0 ^ 2 * exp (- damping * time st') ^ 2 * (1 + damping ^ 2 / omega ^ 2).
Proof.
  cbv zeta. unfold update_pendulum, pendulum_state. cbn [ke_height time].
  set (E := exp (- damping * (time st + dt))).
  set (c := cos (omega * (time st + dt))). set (s := sin (omega * (time st + dt))).
  assert (Hsc : s * s + c * c = 1) by (pose proof (sin2_cos2 (omega * (time st + dt))) as K;
                                       unfold Rsqr in K; exact K).
  assert (Hk : (theta_0 * E * (- damping * c - omega * s)) ^ 2
               <= theta_0 ^ 2 * E ^ 2 * (damping ^ 2 + omega ^ 2)).
  { assert (Hcs : (damping * c + omega * s) ^ 2 <= damping ^ 2 + omega ^ 2).
    { replace (damping ^ 2 + omega ^ 2) with ((damping ^ 2 + omega ^ 2) * (s * s + c * c))
        by (rewrite Hsc; ring).
      pose proof (pow2_ge_0 (damping * s - omega * c)). nra. }
    replace ((theta_0 * E * (- damping * c - omega * s)) ^ 2)
      with (theta_0 ^ 2 * E ^ 2 * (damping * c + omega * s) ^ 2) by ring.
    apply Rmult_le_compat_l; [nra|exact Hcs]. }
  assert (Hw : 0 < omega ^ 2) by (simpl; rewrite Rmult_1_r; apply Rsqr_pos_lt, Homega).
  replace ((theta_0 * E * (- damping * c - omega * s) / omega) ^ 2 * 2)
    with (2 * ((theta_0 * E * (- damping * c - omega * s)) ^ 2 / omega ^ 2))
    by (field; exact Homega).
  replace (2 * theta_0 ^ 2 * E ^ 2 * (1 + damping ^ 2 / omega ^ 2))
    with (2 * (theta_0 ^ 2 * E ^ 2 * (damping ^ 2 + omega ^ 2) / omega ^ 2))
    by (field; exact Homega).
  apply Rmult_le_compat_l; [lra|].
  unfold Rdiv. apply Rmult_le_compat_r; [left; apply Rinv_0_lt_compat, Hw|exact Hk].
Qed.

Lemma cos_ge_half (a : R) : Rabs a <= PI / 3 -> 1 / 2 <= cos a.
Proof.
  intros Ha. rewrite <- cos_PI3.
  assert (Hpi : 0 < PI) by apply PI_RGT_0.
  assert (Hb : forall b, 0 <= b <= PI / 3 -> cos (PI / 3) <= cos b).
  { intros b Hb. destruct (Req_dec b (PI / 3)) as [->|Hne]; [lra|].
    left. apply cos_decreasing_1; lra. }
  unfold Rabs in Ha. destruct (Rcase_abs a).
  - rewrite <- (cos_neg a). apply Hb. lra.
  - apply Hb. lra.
Qed.

(** scene7.py with the constants of [construct] ([L = 3.5], [g = 9.81],
    [theta_0 = PI/3], [omega = sqrt(g/L)], [damping = 0.1]): at every
    non-negative time the potential-energy bar is at most 1 and the
    kinetic-energy bar at most 4, the height of the bar rectangles. *)
Theorem scene_energy_bars corner_points (st : frame_state) (dt : R)
    (Ht : 0 <= time st + dt) :
  let st' := update_pendulum scene_L scene_theta_0 scene_omega scene_damping
               corner_points st dt in
  0 <= pe_height st' <= 1 /\ 0 <= ke_height st' <= 4.
Proof.
  cbv zeta.
  assert (Hpi : 0 < PI) by apply PI_RGT_0. pose proof PI_4 as Hpi4.
  assert (Hw2 : scene_omega ^ 2 = 9.81 / 3.5).
  { unfold scene_omega, scene_g, scene_L. simpl. rewrite Rmult_1_r.
    apply sqrt_sqrt. lra. }
  assert (Hw : scene_omega <> 0).
  { intros E. rewrite E in Hw2. lra. }
  set (E := exp (- scene_damping * (time st + dt))).
  assert (HE : 0 < E <= 1).
  { split; [apply exp_pos|]. apply pend_exp_le_1. unfold scene_damping. nra. }
  split.
  - unfold update_pendulum, pendulum_state. cbn [pe_height]. fold E.
    set (c := cos (scene_omega * (time st + dt))).
    pose proof (COS_bound (scene_omega * (time st + dt))) as Hc. fold c in Hc.
    pose proof (COS_bound (scene_theta_0 * E * c)) as Hc'.
    assert (Hh : 1 / 2 <= cos (scene_theta_0 * E * c)).
    { apply cos_ge_half. unfold scene_theta_0.
      rewrite !Rabs_mult, (Rabs_pos_eq (PI / 3)) by lra.
      rewrite (Rabs_pos_eq E) by lra.
      assert (Rabs c <= 1) by (apply Rabs_le; lra).
      assert (0 <= Rabs c) by apply Rabs_pos.
      assert (E * Rabs c <= 1) by nra.
      assert (0 < PI / 3) by lra.
      replace (PI / 3 * E * Rabs c) with (PI / 3 * (E * Rabs c)) by ring.
      nra. }
    lra.
  - pose proof (ke_bound scene_L scene_theta_0 scene_omega scene_damping corner_points st dt Hw)
      as Hk.
    cbv zeta in Hk. cbn [time update_pendulum] in Hk.
    unfold update_pendulum in *. 
    destruct (pendulum_state (time st + dt) scene_theta_0 scene_damping scene_omega)
      as [theta theta_dot] eqn:Es.
    cbn [ke_height time] in *. fold E in Hk.
    split; [nra|].
    rewrite Hw2 in Hk. unfold scene_theta_0, scene_damping in Hk.
    assert (Hq : (PI / 3) ^ 2 <= 16 / 9) by nra.
    assert (HE2 : E ^ 2 <= 1) by nra.
    nra.
Qed.

Lemma cap_points_skipn {T : Type} (l : list T) :
  cap_points l = skipn (length l - 150) l.
Proof.
  unfold cap_points, py_slice_last.
  destruct (Nat.ltb_spec 150 (length l)); [reflexivity|].
  replace (length l - 150)%nat with 0%nat by lia. reflexivity.
Qed.

Lemma cap_points_cap_app {T : Type} (l a : list T) :
  cap_points (cap_points l ++ a) = cap_points (l ++ a).
Proof.
  rewrite !cap_points_skipn, !length_app, length_skipn.
  rewrite !skipn_app, skipn_skipn, length_skipn.
  f_equal; [f_equal; lia|f_equal; lia].
Qed.

Lemma update_buffers L theta_0 omega damping corner_points (st : frame_state) (dt : R) :
  let st' := update_pendulum L theta_0 omega damping corner_points st dt in
  path_points st' = cap_points (path_points st ++ corner_points (path_points st) (bob_center st')) /\
  phase_points st' = cap_points (phase_points st ++ corner_points (phase_points st) (phase_center st')) /\
  time st' = time st + dt.
Proof.
  cbv zeta. unfold update_pendulum.
  destruct (pendulum_state (time st + dt) theta_0 damping omega). auto.
Qed.

(** scene7.py [update_pendulum] called over a run of frames: the path and
    the phase trail are the last (at most) 150 of all points appended to
    them since the start, and the clock is the start time plus the sum of
    the frames' [dt]. *)
Theorem run_frames_buffers L theta_0 omega damping corner_points (st : frame_state)
    (dt : R) (dts : list R) :
  let st' := run_frames L theta_0 omega damping corner_points st (dt :: dts) in
  path_points st' = cap_points (path_points st ++
    appended_path L theta_0 omega damping corner_points st (dt :: dts)) /\
  phase_points st' = cap_points (phase_points st ++
    appended_phase L theta_0 omega damping corner_points st (dt :: dts)) /\
  time st' = time st + fold_right Rplus 0 (dt :: dts).
Proof.
  cbv zeta. revert st dt; induction dts as [|dt' dts IH]; intros st dt.
  - cbn [run_frames appended_path appended_phase fold_right].
    destruct (update_buffers L theta_0 omega damping corner_points st dt) as (H1 & H2 & H3).
    rewrite !app_nil_r. split; [exact H1|]. split; [exact H2|]. rewrite H3; ring.
  - change (run_frames L theta_0 omega damping corner_points st (dt :: dt' :: dts))
      with (run_frames L theta_0 omega damping corner_points
              (update_pendulum L theta_0 omega damping corner_points st dt) (dt' :: dts)).
    destruct (IH (update_pendulum L theta_0 omega damping corner_points st dt) dt')
      as (H1 & H2 & H3).
    destruct (update_buffers L theta_0 omega damping corner_points st dt) as (K1 & K2 & K3).
    cbn [appended_path appended_phase fold_right] in *.
    rewrite H1, H2, H3, K1, K2, K3, !cap_points_cap_app, !app_assoc.
    split; [reflexivity|]. split; [reflexivity|]. ring.
Qed.

End PendulumFacts.

Module SceneFacts.
Import Scene3 Scene6.
Local Open Scope R_scope.

(** scene3.py, the dot's path: its squared distance from the origin is
    [5/4 + cos(2t)], so it stays between radius 1/2 and 3/2; it lies in
    the plane [z = 0], is periodic with period [TAU] (the dot ends where it
    starts), and is symmetric about the x-axis. *)
Theorem complex_path_props (t : R) :
  let '(x, y, z) := complex_path t in
  x ^ 2 + y ^ 2 = 5 / 4 + cos (2 * t) /\ 1 / 2 <= sqrt (x ^ 2 + y ^ 2) <= 3 / 2 /\ z = 0 /\
  complex_path (t + TAU) = complex_path t /\
  complex_path (- t) = (x, - y, z).
Proof.
  unfold complex_path.
  assert (Hd : cos (2 * t) = cos (3 * t) * cos t + sin (3 * t) * sin t).
  { rewrite <- cos_minus. f_equal. ring. }
  pose proof (sin2_cos2 t) as H1. pose proof (sin2_cos2 (3 * t)) as H3.
  unfold Rsqr in H1, H3.
  assert (Hsq : (cos t + 0.5 * cos (3 * t)) ^ 2 + (sin t + 0.5 * sin (3 * t)) ^ 2
                = 5 / 4 + cos (2 * t)).
  { rewrite Hd. nra. }
  split; [exact Hsq|]. split.
  { rewrite Hsq. pose proof (COS_bound (2 * t)) as Hc. split.
    - rewrite <- (sqrt_pow2 (1/2)) by lra. apply sqrt_le_1_alt. lra.
    - rewrite <- (sqrt_pow2 (3/2)) by lra. apply sqrt_le_1_alt. lra. }
  split; [reflexivity|]. split.
  - unfold TAU.
    replace (3 * (t + 2 * PI)) with (3 * t + 2 * INR 3 * PI) by (simpl; ring).
    rewrite (cos_period (3 * t) 3), (sin_period (3 * t) 3).
    replace (t + 2 * PI) with (t + 2 * INR 1 * PI) by (simpl; ring).
    rewrite cos_period, sin_period. reflexivity.
  - replace (3 * - t) with (- (3 * t)) by ring.
    rewrite !cos_neg, !sin_neg. f_equal. f_equal. ring.
Qed.

(** scene3.py, the spiral: at parameter [t] it is at distance [|t|/4] from
    the origin in the plane [z = 0]; it starts at the origin and ends at
    [(2*PI, 0, 0)]. *)
Theorem spiral_props (t : R) :
  let '(x, y, z) := spiral t in
  x ^ 2 + y ^ 2 = (t / 4) ^ 2 /\ z = 0 /\
  spiral 0 = (0, 0, 0) /\ spiral (4 * TAU) = (2 * PI, 0, 0).
Proof.
  unfold spiral.
  pose proof (sin2_cos2 (3 * t)) as H3. unfold Rsqr in H3.
  split; [nra|]. split; [ring|]. split.
  - f_equal; [f_equal|]; ring.
  - unfold TAU. replace (3 * (4 * (2 * PI))) with (0 + 2 * INR 12 * PI) by (rewrite (INR_IZR_INZ 12); simpl; ring).
    rewrite cos_period, sin_period, cos_0, sin_0. f_equal; [f_equal|]; lra.
Qed.

(** scene6.py [create_accuracy_graph]: the plotted accuracy starts at
    100, stays positive, never exceeds 100 for [x >= 0], strictly decreases,
    and each further [d] days multiply it by [exp(-0.15 * d)]. *)
Theorem accuracy_curve_props :
  accuracy_curve 0 = 100 /\
  (forall x, 0 < accuracy_curve x) /\
  (forall x, 0 <= x -> accuracy_curve x <= 100) /\
  (forall x y, x < y -> accuracy_curve y < accuracy_curve x) /\
  (forall x d, accuracy_curve (x + d) = accuracy_curve x * exp (-0.15 * d)).
Proof.
  unfold accuracy_curve. split; [|split; [|split; [|split]]].
  - replace (-0.15 * 0) with 0 by ring. rewrite exp_0. ring.
  - intros x. pose proof (exp_pos (-0.15 * x)). lra.
  - intros x Hx. pose proof (PendulumFacts.pend_exp_le_1 (-0.15 * x)). lra.
  - intros x y Hxy. pose proof (exp_increasing (-0.15 * y) (-0.15 * x)). lra.
  - intros x d. replace (-0.15 * (x + d)) with (-0.15 * x + -0.15 * d) by ring.
    rewrite exp_plus. ring.
Qed.

Lemma cos_lt_half (y : R) : PI / 3 < y < 5 * PI / 3 -> cos y < 1 / 2.
Proof.
  intros Hy. pose proof PI_RGT_0 as Hpi. rewrite <- cos_PI3.
  destruct (Rle_lt_dec y PI) as [Hle|Hgt].
  - apply cos_decreasing_1; lra.
  - replace (cos y) with (cos (2 * PI - y)).
    + apply cos_decreasing_1; lra.
    + rewrite cos_minus, cos_2PI, sin_2PI. ring.
Qed.

(** scene3.py, the five small circles: each centre lies on the main
    circle (radius 1) in the plane [z = 0], and two distinct centres are
    more than two small-circle radii apart, so the circles do not
    overlap. *)
Theorem small_circles_layout (i j : nat) (Hi : (i < 5)%nat) (Hj : (j < 5)%nat)
    (Hij : i <> j) :
  let '(xi, yi, zi) := small_circle_center i in
  let '(xj, yj, zj) := small_circle_center j in
  xi ^ 2 + yi ^ 2 = main_circle_radius ^ 2 /\ zi = 0 /\
  (2 * small_circle_radius) ^ 2 < (xi - xj) ^ 2 + (yi - yj) ^ 2.
Proof.
  unfold small_circle_center, main_circle_radius, small_circle_radius.
  pose proof (sin2_cos2 (INR i * TAU / 5)) as Hs. unfold Rsqr in Hs.
  split; [nra|]. split; [reflexivity|].
  assert (Hc : cos (INR i * TAU / 5 - INR j * TAU / 5) < 1 / 2).
  { pose proof PI_RGT_0 as Hpi. unfold TAU.
    assert (Hsym : forall a b : nat, (b < a)%nat -> (a < 5)%nat ->
              cos (INR a * (2 * PI) / 5 - INR b * (2 * PI) / 5) < 1 / 2).
    { intros a b Hba Ha. apply cos_lt_half.
      replace (INR a * (2 * PI) / 5 - INR b * (2 * PI) / 5)
        with (INR (a - b) * (2 * PI) / 5) by (rewrite minus_INR by lia; field).
      assert (H1 : INR 1 <= INR (a - b)) by (apply le_INR; lia).
      assert (H4 : INR (a - b) <= INR 4) by (apply le_INR; lia).
      simpl in H1, H4.
      nra. }
    destruct (Nat.lt_total i j) as [Hlt|[Heq|Hgt]]; [|lia|apply Hsym; lia].
    rewrite <- cos_neg.
    replace (- (INR i * (2 * PI) / 5 - INR j * (2 * PI) / 5))
      with (INR j * (2 * PI) / 5 - INR i * (2 * PI) / 5) by ring.
    apply Hsym; lia. }
  rewrite cos_minus in Hc.
  pose proof (sin2_cos2 (INR j * TAU / 5)) as Ht. unfold Rsqr in Ht.
  nra.
Qed.

End SceneFacts.

Section SceneWitnesses.
Local Open Scope R_scope.

Lemma ke_bound_witness :
  (1 <> 0)%R /\
  let st' := Pendulum.update_pendulum 1 1 1 0 (fun _ c => [c])
               (Pendulum.mk_frame 0 (0, 0, 0) [] 0 0 (0, 0, 0) []) 1 in
  (Pendulum.ke_height st' <=
     2 * 1 ^ 2 * exp (- 0 * Pendulum.time st') ^ 2 * (1 + 0 ^ 2 / 1 ^ 2))%R.
Proof.
  split; [lra|].
  exact (PendulumFacts.ke_bound 1 1 1 0 (fun _ c => [c])
           (Pendulum.mk_frame 0 (0, 0, 0) [] 0 0 (0, 0, 0) []) 1 ltac:(lra)).
Defined.

Lemma scene_energy_bars_witness :
  (0 <= Pendulum.time (Pendulum.mk_frame 0 (0, 0, 0) [] 0 0 (0, 0, 0) []) + 1 / 60)%R /\
  let st' := Pendulum.update_pendulum PendulumRun.scene_L PendulumRun.scene_theta_0
               PendulumRun.scene_omega PendulumRun.scene_damping (fun _ c => [c])
               (Pendulum.mk_frame 0 (0, 0, 0) [] 0 0 (0, 0, 0) []) (1 / 60) in
  (0 <= Pendulum.pe_height st' <= 1 /\ 0 <= Pendulum.ke_height st' <= 4)%R.
Proof.
  assert (Ht : (0 <= Pendulum.time (Pendulum.mk_frame 0 (0, 0, 0) [] 0 0 (0, 0, 0) [])
                     + 1 / 60)%R) by (simpl; lra).
  split; [exact Ht|].
  exact (PendulumFacts.scene_energy_bars (fun _ c => [c])
           (Pendulum.mk_frame 0 (0, 0, 0) [] 0 0 (0, 0, 0) []) (1 / 60) Ht).
Defined.

Lemma small_circles_layout_witness :
  (0 < 5)%nat /\ (3 < 5)%nat /\ 0%nat <> 3%nat /\
  let '(xi, yi, zi) := Scene3.small_circle_center 0 in
  let '(xj, yj, zj) := Scene3.small_circle_center 3 in
  (xi ^ 2 + yi ^ 2 = Scene3.main_circle_radius ^ 2 /\ zi = 0 /\
   (2 * Scene3.small_circle_radius) ^ 2 < (xi - xj) ^ 2 + (yi - yj) ^ 2)%R.
Proof.
  split; [lia|]. split; [lia|]. split; [lia|].
  apply (SceneFacts.small_circles_layout 0 3); lia.
Defined.

End SceneWitnesses.

Module LinspaceFacts.
Import Scene6.
Local Open Scope R_scope.

(** numpy's [linspace] as used by scene6.py [create_uncertainty_cone]: for
    [num >= 2] and [start <= stop] it returns [num] values, the first
    [start], the last [stop], all within [[start, stop]]. *)
Theorem linspace_props (a b : R) (n : nat) (Hn : (2 <= n)%nat) (Hab : a <= b) :
  length (linspace a b n) = n /\
  hd 0 (linspace a b n) = a /\
  List.last (linspace a b n) 0 = b /\
  Forall (fun y => a <= y <= b) (linspace a b n).
Proof.
  destruct n as [|[|n]]; [lia|lia|].
  unfold linspace.
  assert (Hpos : 0 < INR (S n)) by (apply lt_0_INR; lia).
  split; [|split; [|split]].
  - rewrite length_app, length_map, length_seq. simpl. lia.
  - cbn [seq map app hd]. change (INR 0) with 0. ring.
  - apply last_last.
  - apply Forall_app. split; [|constructor; [lra|constructor]].
    apply Forall_map, Forall_forall. intros k Hk.
    rewrite elem_of_seq in Hk.
    assert (H0 : 0 <= INR k) by apply pos_INR.
    assert (H1 : INR k <= INR (S n)) by (apply le_INR; lia).
    assert (Hq : 0 <= (b - a) / INR (S n)).
    { unfold Rdiv. apply Rmult_le_pos; [lra|left; apply Rinv_0_lt_compat, Hpos]. }
    split; [nra|].
    assert (Hm : INR k * ((b - a) / INR (S n)) <= INR (S n) * ((b - a) / INR (S n)))
      by (apply Rmult_le_compat_r; assumption).
    replace (INR (S n) * ((b - a) / INR (S n))) with (b - a) in Hm
      by (field; lra).
    lra.
Qed.

(** scene6.py [create_uncertainty_cone]: the ten line ends lie on the
    segment from [(3, -2, 0)] to [(3, 2, 0)], the far edge of the cone
    polygon, whose corners are the first and the last of them. *)
Theorem uncertainty_cone_ends :
  length cone_end_points = 10%nat /\
  hd (0, 0, 0) cone_end_points = (3, -2, 0) /\
  List.last cone_end_points (0, 0, 0) = (3, 2, 0) /\
  Forall (fun p => let '(x, y, z) := p in x = 3 /\ -2 <= y <= 2 /\ z = 0) cone_end_points.
Proof.
  destruct (linspace_props (-2) 2 10 ltac:(lia) ltac:(lra)) as (H1 & H2 & H3 & H4).
  unfold cone_end_points.
  destruct (linspace (-2) 2 10) as [|y0 ys] eqn:E; [discriminate|].
  split; [rewrite length_map; exact H1|].
  split; [simpl in H2 |- *; now rewrite H2|].
  split.
  - rewrite <- H3. clear. revert y0; induction ys as [|y1 ys IH]; intros y0; [reflexivity|].
    change (List.last (map (fun y => (3, y, 0)) (y1 :: ys)) (0, 0, 0)
            = (3, List.last (y1 :: ys) 0, 0)). apply IH.
  - apply Forall_map. eapply Forall_impl; [exact H4|]. simpl. intros y Hy. lra.
Qed.

End LinspaceFacts.

Lemma linspace_props_witness :
  (2 <= 10)%nat /\ (-2 <= 2)%R /\
  length (Scene6.linspace (-2) 2 10) = 10%nat /\
  hd 0%R (Scene6.linspace (-2) 2 10) = (-2)%R /\
  List.last (Scene6.linspace (-2) 2 10) 0%R = 2%R /\
  Forall (fun y => -2 <= y <= 2)%R (Scene6.linspace (-2) 2 10).
Proof.
  split; [lia|]. split; [lra|].
  apply (LinspaceFacts.linspace_props (-2) 2 10); [lia|lra].
Defined.
